(** * MyRouge155: configuration synthesis, option building and output parsing

    A shallow embedding of [MyRouge155.py] (a Python 2 wrapper around the
    ROUGE-1.5.5 scorer) together with the properties of its file matching,
    association resolution, document generation, command-line construction
    and report parsing.

    Conventions of the embedding:
    - Python strings are [string] (sequences of 8-bit characters).
    - Raised exceptions are values of [exn]; a computation that may raise
      has type [result A].
    - [os.listdir] reads a [filesystem]; [codecs.open(..., 'w')] and
      [f.write] update it, so a partially written document is observable.
    - [re.compile] / [pattern.match] are modelled by a backtracking matcher
      over a fragment of Python's regular-expression syntax (module [Re]).
    - [float] on a decimal numeral is the exact rational the numeral
      denotes; binary rounding is outside the model. *)

From Stdlib Require Import Ascii QArith DecimalString.
From stdpp Require Import gmap strings list sorting.

Local Open Scope stdpp_scope.

(** ** Exceptions and the error monad *)

Inductive exn : Type :=
  | Exception (msg : string)      (* [raise Exception(msg)] *)
  | IndexError
  | KeyError (key : string)
  | ValueError
  | TypeError
  | UnicodeDecodeError
  | OSError
  | ReError.                      (* [re.error] and patterns outside the fragment *)

Inductive result (A : Type) : Type :=
  | Ok (a : A)
  | Raise (e : exn).
Arguments Ok {A} a.
Arguments Raise {A} e.

Global Instance result_ret : MRet result := fun A a => Ok a.
Global Instance result_bind : MBind result := fun A B f m =>
  match m with
  | Ok a => f a
  | Raise e => Raise e
  end.

Definition is_ok {A} (m : result A) : bool :=
  match m with Ok _ => true | Raise _ => false end.

(** ** Python string helpers *)

Module Py.

Definition dq : string := String "034" EmptyString.
Definition nl : string := String "010" EmptyString.
Definition tab : string := String "009" EmptyString.

Fixpoint is_prefix (p s : string) : bool :=
  match p, s with
  | EmptyString, _ => true
  | String a p', String b s' => if decide (a = b) then is_prefix p' s' else false
  | String _ _, EmptyString => false
  end.

Fixpoint take (n : nat) (s : string) : string :=
  match n, s with
  | S n', String a s' => String a (take n' s')
  | _, _ => EmptyString
  end.

(** [s.replace(old, new)]: leftmost, non-overlapping occurrences.  [skip]
    counts the characters of a just-replaced occurrence still to drop. *)
Fixpoint replace_go (old new : string) (skip : nat) (s : string) : string :=
  match s with
  | EmptyString => EmptyString
  | String a s' =>
      match skip with
      | S k => replace_go old new k s'
      | O =>
          if is_prefix old s
          then new +:+ replace_go old new (String.length old - 1) s'
          else String a (replace_go old new O s')
      end
  end.

Fixpoint intersperse (new : string) (s : string) : string :=
  match s with
  | EmptyString => new
  | String a s' => new +:+ String a (intersperse new s')
  end.

Definition replace (old new s : string) : string :=
  match old with
  | EmptyString => intersperse new s
  | _ => replace_go old new O s
  end.

(** [sep.join(l)] *)
Fixpoint join (sep : string) (l : list string) : string :=
  match l with
  | [] => EmptyString
  | [x] => x
  | x :: l' => x +:+ sep +:+ join sep l'
  end.

(** [s.split("\n")] *)
Fixpoint split_nl_go (cur : string) (s : string) : list string :=
  match s with
  | EmptyString => [String.rev cur]
  | String a s' =>
      if decide (a = "010"%char)
      then String.rev cur :: split_nl_go EmptyString s'
      else split_nl_go (String a cur) s'
  end.
Definition split_nl : string → list string := split_nl_go EmptyString.

(** [s.split()]: maximal runs of non-whitespace characters. *)
Definition split : string → list string := String.words.

Definition lower_char (a : ascii) : ascii :=
  let n := nat_of_ascii a in
  if (65 <=? n)%nat && (n <=? 90)%nat then ascii_of_nat (n + 32) else a.

Fixpoint lower (s : string) : string :=
  match s with
  | EmptyString => EmptyString
  | String a s' => String (lower_char a) (lower s')
  end.

(** [sorted(l)] on strings: the ascending rearrangement under the
    code-point order. *)
Definition sorted (l : list string) : list string := merge_sort String.le l.

(** ["{}".format(n)] for a non-negative integer. *)
Definition str_of_nat (n : nat) : string :=
  NilEmpty.string_of_uint (Nat.to_uint n).

(** [chr(n)] spliced into a unicode format string: a byte below 128 is
    kept, a byte from 128 to 255 fails the implicit ASCII decoding, and
    [chr] itself rejects anything larger. *)
Definition chr_format (n : nat) : result string :=
  if (n <? 128)%nat then Ok (String (ascii_of_nat n) EmptyString)
  else if (n <? 256)%nat then Raise UnicodeDecodeError
  else Raise ValueError.

Fixpoint no_newline (s : string) : bool :=
  match s with
  | EmptyString => true
  | String a s' => negb (bool_decide (a = "010"%char)) && no_newline s'
  end.

Definition is_digit (a : ascii) : bool :=
  let n := nat_of_ascii a in (48 <=? n)%nat && (n <=? 57)%nat.

Definition digit_val (a : ascii) : Z := Z.of_nat (nat_of_ascii a - 48).

End Py.

(** ** Regular expressions: the fragment of Python's [re] used here

    Supported syntax: literal characters, [.], the class escapes
    [\d \D \w \W \s \S], escaped punctuation and [\n \t \r \f \v], bracket
    classes with ranges and negation, capturing groups, alternation, the
    greedy quantifiers [* + ?] on bodies that cannot match the empty
    string, and the end anchor [$].  Anything else makes [compile] fail. *)

Module Re.

Inductive citem : Type :=
  | IChar (c : ascii)
  | IRange (lo hi : ascii)
  | IDigit | INotDigit
  | IWord | INotWord
  | ISpace | INotSpace.

Inductive regex : Type :=
  | Eps
  | Lit (c : ascii)
  | Any                                   (* [.]: any character but newline *)
  | Cls (neg : bool) (items : list citem)
  | Seq (r1 r2 : regex)
  | Alt (r1 r2 : regex)
  | Star (r : regex)                      (* greedy *)
  | Group (n : nat) (r : regex)           (* capturing group number [S n] *)
  | Eol.                                  (* [$] *)

Definition is_word (a : ascii) : bool :=
  let n := nat_of_ascii a in
  Py.is_digit a
  || ((65 <=? n)%nat && (n <=? 90)%nat)
  || ((97 <=? n)%nat && (n <=? 122)%nat)
  || (n =? 95)%nat.

Definition citem_matches (a : ascii) (i : citem) : bool :=
  match i with
  | IChar c => bool_decide (a = c)
  | IRange lo hi =>
      (nat_of_ascii lo <=? nat_of_ascii a)%nat && (nat_of_ascii a <=? nat_of_ascii hi)%nat
  | IDigit => Py.is_digit a
  | INotDigit => negb (Py.is_digit a)
  | IWord => is_word a
  | INotWord => negb (is_word a)
  | ISpace => Ascii.is_space a
  | INotSpace => negb (Ascii.is_space a)
  end.

Definition cls_matches (neg : bool) (items : list citem) (a : ascii) : bool :=
  xorb neg (existsb (citem_matches a) items).

(** Group values, indexed from 0 for group 1; [None] is a group that did
    not take part in the match. *)
Abbreviation caps := (list (option string)).

(** The greedy loop of [Star]: [body] matches the repeated expression once.
    An iteration counts only if it consumes input, and [fuel] bounds the
    number of iterations by the length of the input. *)
Fixpoint star_loop
    (body : string → caps → (string → caps → option (string * caps)) → option (string * caps))
    (k : string → caps → option (string * caps))
    (fuel : nat) (s : string) (c : caps) : option (string * caps) :=
  match fuel with
  | O => k s c
  | S fuel' =>
      match body s c (fun s' c' =>
              if (String.length s' <? String.length s)%nat
              then star_loop body k fuel' s' c' else None) with
      | Some x => Some x
      | None => k s c
      end
  end.

(** The matcher, in continuation-passing style: [k] receives the unread
    input and the groups, and backtracking is the [None] answer. *)
Fixpoint rmatch (r : regex) (s : string) (c : caps)
    (k : string → caps → option (string * caps)) : option (string * caps) :=
  match r with
  | Eps => k s c
  | Lit x =>
      match s with
      | String a s' => if bool_decide (a = x) then k s' c else None
      | EmptyString => None
      end
  | Any =>
      match s with
      | String a s' => if bool_decide (a = "010"%char) then None else k s' c
      | EmptyString => None
      end
  | Cls neg items =>
      match s with
      | String a s' => if cls_matches neg items a then k s' c else None
      | EmptyString => None
      end
  | Seq r1 r2 => rmatch r1 s c (fun s' c' => rmatch r2 s' c' k)
  | Alt r1 r2 =>
      match rmatch r1 s c k with
      | Some x => Some x
      | None => rmatch r2 s c k
      end
  | Star r' => star_loop (rmatch r') k (String.length s) s c
  | Group n r' =>
      rmatch r' s c (fun s' c' =>
        k s' (<[n := Some (Py.take (String.length s - String.length s') s)]> c'))
  | Eol =>
      if bool_decide (s = EmptyString) || bool_decide (s = Py.nl) then k s c else None
  end.

Fixpoint nullable (r : regex) : bool :=
  match r with
  | Eps | Eol => true
  | Lit _ | Any | Cls _ _ => false
  | Seq r1 r2 => nullable r1 && nullable r2
  | Alt r1 r2 => nullable r1 || nullable r2
  | Star _ => true
  | Group _ r' => nullable r'
  end.

(** *** Parsing *)

Definition class_escape (a : ascii) : option citem :=
  if bool_decide (a = "d"%char) then Some IDigit
  else if bool_decide (a = "D"%char) then Some INotDigit
  else if bool_decide (a = "w"%char) then Some IWord
  else if bool_decide (a = "W"%char) then Some INotWord
  else if bool_decide (a = "s"%char) then Some ISpace
  else if bool_decide (a = "S"%char) then Some INotSpace
  else if bool_decide (a = "n"%char) then Some (IChar "010")
  else if bool_decide (a = "t"%char) then Some (IChar "009")
  else if bool_decide (a = "r"%char) then Some (IChar "013")
  else if bool_decide (a = "f"%char) then Some (IChar "012")
  else if bool_decide (a = "v"%char) then Some (IChar "011")
  else if is_word a || (128 <=? nat_of_ascii a)%nat then None
  else Some (IChar a).

Definition atom_of_item (i : citem) : regex :=
  match i with
  | IChar c => Lit c
  | _ => Cls false [i]
  end.

(** Items of a bracket class, after the opening bracket and the optional
    [^]; returns the items and the input after the closing bracket. *)
Fixpoint parse_class_items (first : bool) (acc : list citem) (s : string)
    : option (list citem * string) :=
  match s with
  | EmptyString => None
  | String a s1 =>
      if bool_decide (a = "]"%char) then
        if first then None else Some (rev acc, s1)
      else if bool_decide (a = "\"%char) then
        match s1 with
        | String b s2 =>
            match class_escape b with
            | Some i =>
                match s2 with
                | String d (String e _) =>
                    if bool_decide (d = "-"%char) && negb (bool_decide (e = "]"%char))
                    then None
                    else parse_class_items false (i :: acc) s2
                | _ => parse_class_items false (i :: acc) s2
                end
            | None => None
            end
        | EmptyString => None
        end
      else
        match s1 with
        | String d (String e s3) =>
            if bool_decide (d = "-"%char) && negb (bool_decide (e = "]"%char)) then
              if bool_decide (e = "\"%char) then None
              else if (nat_of_ascii a <=? nat_of_ascii e)%nat
              then parse_class_items false (IRange a e :: acc) s3
              else None
            else parse_class_items false (IChar a :: acc) s1
        | _ => parse_class_items false (IChar a :: acc) s1
        end
  end.

Definition parse_class (s : string) : option (regex * string) :=
  match s with
  | String a s' =>
      if bool_decide (a = "^"%char)
      then '(items, rest) ← parse_class_items true [] s'; Some (Cls true items, rest)
      else '(items, rest) ← parse_class_items true [] s; Some (Cls false items, rest)
  | EmptyString => None
  end.

Definition is_quantifier (a : ascii) : bool :=
  bool_decide (a = "*"%char) || bool_decide (a = "+"%char)
  || bool_decide (a = "?"%char) || bool_decide (a = "{"%char).

(** A quantifier, if any, applied to the atom just read. *)
Definition quantify (atom : regex) (s : string) : option (regex * string) :=
  match s with
  | String q s' =>
      if bool_decide (q = "*"%char) || bool_decide (q = "+"%char)
         || bool_decide (q = "?"%char) then
        if nullable atom then None
        else
          match s' with
          | String q' _ => if is_quantifier q' then None else
              Some (if bool_decide (q = "*"%char) then Star atom
                    else if bool_decide (q = "+"%char) then Seq atom (Star atom)
                    else Alt atom Eps, s')
          | EmptyString =>
              Some (if bool_decide (q = "*"%char) then Star atom
                    else if bool_decide (q = "+"%char) then Seq atom (Star atom)
                    else Alt atom Eps, s')
          end
      else Some (atom, s)
  | EmptyString => Some (atom, s)
  end.

Definition mk_seq (items : list regex) : regex :=
  match items with
  | [] => Eps
  | r :: rs => foldl (fun acc x => Seq x acc) r rs
  end.

Definition mk_alt (alts : list regex) (last : regex) : regex :=
  foldl (fun acc x => Alt x acc) last alts.

(** One alternation level.  [n] groups have been opened so far; [items] is
    the current branch, latest atom first; [alts] the finished branches,
    latest first.  Stops before an unmatched closing parenthesis. *)
Fixpoint parse_level (fuel : nat) (s : string) (n : nat)
    (items alts : list regex) : option (regex * string * nat) :=
  match fuel with
  | O => None
  | S fuel' =>
      match s with
      | EmptyString => Some (mk_alt alts (mk_seq items), s, n)
      | String a s' =>
          if bool_decide (a = ")"%char) then Some (mk_alt alts (mk_seq items), s, n)
          else if bool_decide (a = "|"%char)
          then parse_level fuel' s' n [] (mk_seq items :: alts)
          else if bool_decide (a = "("%char) then
            match s' with
            | String q _ =>
                if bool_decide (q = "?"%char) then None else
                match parse_level fuel' s' (S n) [] [] with
                | Some (body, String _ rest, n') =>
                    '(atom, rest') ← quantify (Group n body) rest;
                    parse_level fuel' rest' n' (atom :: items) alts
                | _ => None
                end
            | EmptyString => None
            end
          else if bool_decide (a = "["%char) then
            '(cls, rest) ← parse_class s';
            '(atom, rest') ← quantify cls rest;
            parse_level fuel' rest' n (atom :: items) alts
          else if bool_decide (a = "\"%char) then
            match s' with
            | String b rest =>
                i ← class_escape b;
                '(atom, rest') ← quantify (atom_of_item i) rest;
                parse_level fuel' rest' n (atom :: items) alts
            | EmptyString => None
            end
          else if bool_decide (a = "$"%char)
          then
            match s' with
            | String q _ =>
                if is_quantifier q then None
                else parse_level fuel' s' n (Eol :: items) alts
            | EmptyString => parse_level fuel' s' n (Eol :: items) alts
            end
          else if is_quantifier a || bool_decide (a = "^"%char) then None
          else
            '(atom, rest') ← quantify (if bool_decide (a = "."%char) then Any else Lit a) s';
            parse_level fuel' rest' n (atom :: items) alts
      end
  end.

(** A compiled pattern: its syntax tree, number of groups and source text. *)
Record pattern : Type := {
  ast : regex;
  ngroups : nat;
  source : string
}.

(** [re.compile(p)] *)
Definition compile (p : string) : result pattern :=
  match parse_level (S (String.length p)) p 0 [] [] with
  | Some (r, EmptyString, n) => Ok {| ast := r; ngroups := n; source := p |}
  | _ => Raise ReError
  end.

(** [pattern.match(s)]: a match anchored at the start of [s]; on success
    the unread rest of [s] and the group values. *)
Definition match_ (p : pattern) (s : string) : option (string * caps) :=
  rmatch (ast p) s (replicate (ngroups p) None) (fun s' c => Some (s', c)).

(** [match.groups()] *)
Definition groups (m : string * caps) : caps := m.2.

(** *** Declarative reading of the matcher

    [reach r s c s' c']: the expression [r] can consume a prefix of [s],
    leaving [s'], and turn the groups [c] into [c']. *)
Inductive reach : regex → string → caps → string → caps → Prop :=
  | reach_eps s c : reach Eps s c s c
  | reach_lit a s c : reach (Lit a) (String a s) c s c
  | reach_any a s c : a ≠ "010"%char → reach Any (String a s) c s c
  | reach_cls neg items a s c :
      cls_matches neg items a = true → reach (Cls neg items) (String a s) c s c
  | reach_seq r1 r2 s c s1 c1 s2 c2 :
      reach r1 s c s1 c1 → reach r2 s1 c1 s2 c2 → reach (Seq r1 r2) s c s2 c2
  | reach_alt_l r1 r2 s c s' c' : reach r1 s c s' c' → reach (Alt r1 r2) s c s' c'
  | reach_alt_r r1 r2 s c s' c' : reach r2 s c s' c' → reach (Alt r1 r2) s c s' c'
  | reach_star_stop r s c : reach (Star r) s c s c
  | reach_star_step r s c s1 c1 s2 c2 :
      reach r s c s1 c1 → (String.length s1 < String.length s)%nat →
      reach (Star r) s1 c1 s2 c2 → reach (Star r) s c s2 c2
  | reach_group n r s c s' c' :
      reach r s c s' c' →
      reach (Group n r) s c s'
        (<[n := Some (Py.take (String.length s - String.length s') s)]> c')
  | reach_eol s c : s = EmptyString ∨ s = Py.nl → reach Eol s c s c.

(** Group [n] holds a text. *)
Definition set_at (n : nat) (c : caps) : Prop := ∃ text, c !! n = Some (Some text).

(** Every way through [r] ends with the end anchor. *)
Fixpoint anchored (r : regex) : bool :=
  match r with
  | Eol => true
  | Seq _ r2 => anchored r2
  | Alt r1 r2 => anchored r1 && anchored r2
  | Group _ r' => anchored r'
  | _ => false
  end.

(** Every way through [r] sets group [n]. *)
Fixpoint mandatory (n : nat) (r : regex) : bool :=
  match r with
  | Seq r1 r2 => mandatory n r1 || mandatory n r2
  | Alt r1 r2 => mandatory n r1 && mandatory n r2
  | Group m r' => bool_decide (m = n) || mandatory n r'
  | _ => false
  end.

End Re.

(** ** The file system seen by the program *)

Record filesystem : Type := {
  dirs : gmap string (list string);   (* directory path -> its entries, in listing order *)
  files : gmap string string          (* file path -> contents *)
}.

(** [os.listdir(d)] *)
Definition listdir (fs : filesystem) (d : string) : result (list string) :=
  match dirs fs !! d with
  | Some names => Ok names
  | None => Raise OSError
  end.

(** [codecs.open(path, 'w', encoding='utf-8')]: creates or truncates.  Only
    the contents are recorded: the name a new file adds to the listing of
    its directory is not, so [dirs] says what the listings were when the
    program read them (both writers list before they open the file). *)
Definition open_w (path : string) (fs : filesystem) : filesystem :=
  {| dirs := dirs fs; files := <[path := EmptyString]> (files fs) |}.

(** [f.write(data)] on the file opened at [path]. *)
Definition write (path data : string) (fs : filesystem) : filesystem :=
  {| dirs := dirs fs; files := alter (fun old => old +:+ data) path (files fs) |}.

(** ** Matching helpers shared by the configuration writers *)

(** The value of [match.groups(0)[0]]: the text of group 1, or the default
    [0] when the group took no part in the match. *)
Inductive ident : Type :=
  | IdStr (s : string)
  | IdZero.

Definition first_group (m : string * Re.caps) : result ident :=
  match Re.groups m with
  | [] => Raise IndexError
  | Some g :: _ => Ok (IdStr g)
  | None :: _ => Ok IdZero
  end.

Definition matches (p : Re.pattern) (f : string) : Prop := is_Some (Re.match_ p f).

Global Instance matches_dec p f : Decision (matches p f).
Proof. unfold matches. apply _. Defined.

Definition str_of_ident (id : ident) : string :=
  match id with
  | IdStr s => s
  | IdZero => "0"
  end.

Definition missing_models_msg (id : ident) (model_filenames_pattern : string) : string :=
  "Could not find any model summaries for the system summary with ID "
  +:+ str_of_ident id +:+ ". Specified model filename pattern was: "
  +:+ model_filenames_pattern.

(** [MyRouge155.__get_model_filenames_for_id] *)
Definition __get_model_filenames_for_id (fs : filesystem) (id : ident)
    (model_dir model_filenames_pattern : string) : result (list string) :=
  id_text ← match id with
            | IdStr s => Ok s
            | IdZero => Raise TypeError      (* [str.replace] with an integer *)
            end;
  pattern ← Re.compile (Py.replace "#ID#" id_text model_filenames_pattern);
  names ← listdir fs model_dir;
  let model_filenames := filter (matches pattern) names in
  match model_filenames with
  | [] => Raise (Exception (missing_models_msg id model_filenames_pattern))
  | _ => Ok model_filenames
  end.

(** ** Single system: [write_config_static] *)

(** The [for system_filename in sorted(system_filenames)] loop. *)
Fixpoint system_models_loop (fs : filesystem) (system_re : Re.pattern)
    (model_dir model_filename_pattern : string) (names : list string)
    : result (list (string * list string)) :=
  match names with
  | [] => Ok []
  | system_filename :: rest =>
      match Re.match_ system_re system_filename with
      | Some m =>
          id ← first_group m;
          model_filenames ← __get_model_filenames_for_id fs id model_dir model_filename_pattern;
          tuples ← system_models_loop fs system_re model_dir model_filename_pattern rest;
          Ok ((system_filename, Py.sorted model_filenames) :: tuples)
      | None => system_models_loop fs system_re model_dir model_filename_pattern rest
      end
  end.

(** [<M ID="{chr(65+i)}">{name}</M>] for the names from index [i] on. *)
Fixpoint model_elems_from (i : nat) (model_filenames : list string) : result (list string) :=
  match model_filenames with
  | [] => Ok []
  | name :: rest =>
      id ← Py.chr_format (65 + i);
      elems ← model_elems_from (S i) rest;
      Ok (("<M ID=" +:+ Py.dq +:+ id +:+ Py.dq +:+ ">" +:+ name +:+ "</M>") :: elems)
  end.

(** The [<EVAL>] template shared by both writers. *)
Definition eval_template (task_id model_root peer_root peer_elems model_elems : string)
    : string :=
  Py.nl +:+
  "    <EVAL ID=" +:+ Py.dq +:+ task_id +:+ Py.dq +:+ ">" +:+ Py.nl +:+
  "        <MODEL-ROOT>" +:+ model_root +:+ "</MODEL-ROOT>" +:+ Py.nl +:+
  "        <PEER-ROOT>" +:+ peer_root +:+ "</PEER-ROOT>" +:+ Py.nl +:+
  "        <INPUT-FORMAT TYPE=" +:+ Py.dq +:+ "SEE" +:+ Py.dq +:+ ">" +:+ Py.nl +:+
  "        </INPUT-FORMAT>" +:+ Py.nl +:+
  "        <PEERS>" +:+ Py.nl +:+
  "            " +:+ peer_elems +:+ Py.nl +:+
  "        </PEERS>" +:+ Py.nl +:+
  "        <MODELS>" +:+ Py.nl +:+
  "            " +:+ model_elems +:+ Py.nl +:+
  "        </MODELS>" +:+ Py.nl +:+
  "    </EVAL>" +:+ Py.nl.

Definition elem_sep : string := Py.nl +:+ Py.tab +:+ Py.tab +:+ Py.tab.

(** [MyRouge155.__get_eval_string]; [system_id] is already rendered. *)
Definition __get_eval_string (task_id : nat) (system_id : string)
    (system_dir system_filename model_dir : string) (model_filenames : list string)
    : result string :=
  let peer_elems :=
    "<P ID=" +:+ Py.dq +:+ system_id +:+ Py.dq +:+ ">" +:+ system_filename +:+ "</P>" in
  model_elems ← model_elems_from 0 model_filenames;
  Ok (eval_template (Py.str_of_nat task_id) model_dir system_dir peer_elems
        (Py.join elem_sep model_elems)).

Definition rouge_header : string :=
  "<ROUGE-EVAL version=" +:+ Py.dq +:+ "1.55" +:+ Py.dq +:+ ">".
Definition rouge_footer : string := "</ROUGE-EVAL>".

Definition no_system_files_msg (pattern system_dir : string) : string :=
  "Did not find any files matching the pattern " +:+ pattern
  +:+ " in the system summaries directory " +:+ system_dir +:+ ".".

(** The [for task_id, (...) in enumerate(system_models_tuples, start=1)]
    loop of [write_config_static], from [task_id] on. *)
Fixpoint write_evals (config_file_path system_id system_dir model_dir : string)
    (task_id : nat) (tuples : list (string * list string)) (fs : filesystem)
    : result unit * filesystem :=
  match tuples with
  | [] => (Ok (), fs)
  | (system_filename, model_filenames) :: rest =>
      match __get_eval_string task_id system_id system_dir system_filename
              model_dir model_filenames with
      | Ok eval_string =>
          write_evals config_file_path system_id system_dir model_dir (S task_id) rest
            (write config_file_path eval_string fs)
      | Raise e => (Raise e, fs)
      end
  end.

(** [MyRouge155.write_config_static] *)
Definition write_config_static (system_dir system_filename_pattern
    model_dir model_filename_pattern config_file_path system_id : string)
    (fs : filesystem) : result unit * filesystem :=
  match
    system_filenames ← listdir fs system_dir;
    system_re ← Re.compile system_filename_pattern;
    system_models_tuples ←
      system_models_loop fs system_re model_dir model_filename_pattern
        (Py.sorted system_filenames);
    match system_models_tuples with
    | [] => Raise (Exception (no_system_files_msg (Re.source system_re) system_dir))
    | _ => Ok system_models_tuples
    end
  with
  | Raise e => (Raise e, fs)
  | Ok system_models_tuples =>
      let fs1 := write config_file_path rouge_header (open_w config_file_path fs) in
      match write_evals config_file_path system_id system_dir model_dir 1
              system_models_tuples fs1 with
      | (Ok _, fs2) => (Ok (), write config_file_path rouge_footer fs2)
      | (Raise e, fs2) => (Raise e, fs2)
      end
  end.

(** ** Several systems: [ProduceSysModPair] and [write_config_staticA] *)

(** One element [[id, system_id, system_filename]] of [id_file_set]. *)
Record peer : Type := {
  peer_id : ident;
  peer_system_id : string;
  peer_filename : string
}.

(** The [for system_filename in sorted(system_filenames)] loop of
    [ProduceSysModPair], for one system label [eachdir]. *)
Fixpoint id_file_loop (system_re : Re.pattern) (eachdir : string) (names : list string)
    : result (list peer) :=
  match names with
  | [] => Ok []
  | system_filename :: rest =>
      match Re.match_ system_re system_filename with
      | Some m =>
          id ← first_group m;
          id_file_set ← id_file_loop system_re eachdir rest;
          Ok ({| peer_id := id; peer_system_id := eachdir;
                 peer_filename := system_filename |} :: id_file_set)
      | None => id_file_loop system_re eachdir rest
      end
  end.

(** The pattern compiled for the label [eachdir]. *)
Definition syspattern (system_filename_pattern eachdir : string) : string :=
  system_filename_pattern +:+ "." +:+ eachdir +:+ "$".

(** The [for eachdir in system_idset] loop. *)
Fixpoint all_id_loop (system_filename_pattern : string) (system_filenames : list string)
    (system_idset : list string) : result (list (list peer)) :=
  match system_idset with
  | [] => Ok []
  | eachdir :: rest =>
      system_re ← Re.compile (syspattern system_filename_pattern eachdir);
      id_file_set ← id_file_loop system_re eachdir (Py.sorted system_filenames);
      all_id_system_file ← all_id_loop system_filename_pattern system_filenames rest;
      Ok (id_file_set :: all_id_system_file)
  end.

(** [[eachsystemset[i] for eachsystemset in all_id_system_file]] *)
Fixpoint system_id_set_at (i : nat) (all_id_system_file : list (list peer))
    : result (list peer) :=
  match all_id_system_file with
  | [] => Ok []
  | eachsystemset :: rest =>
      match eachsystemset !! i with
      | Some p => ps ← system_id_set_at i rest; Ok (p :: ps)
      | None => Raise IndexError
      end
  end.

(** The [for eachsystem in all_id_system_file[0]] loop, with its counter [i]. *)
Fixpoint pair_loop (fs : filesystem) (model_dir model_filenames_pattern : string)
    (all_id_system_file : list (list peer)) (i : nat) (first : list peer)
    : result (list (list peer * list string)) :=
  match first with
  | [] => Ok []
  | eachsystem :: rest =>
      model_file_set ← __get_model_filenames_for_id fs (peer_id eachsystem)
                         model_dir model_filenames_pattern;
      system_id_set ← system_id_set_at i all_id_system_file;
      model_system_tuple ← pair_loop fs model_dir model_filenames_pattern
                             all_id_system_file (S i) rest;
      Ok ((system_id_set, model_file_set) :: model_system_tuple)
  end.

(** [MyRouge155.ProduceSysModPair] *)
Definition ProduceSysModPair (fs : filesystem) (system_dir model_dir : string)
    (system_idset : list string) (model_filenames_pattern system_filename_pattern : string)
    : result (list (list peer * list string)) :=
  system_filenames ← listdir fs system_dir;
  all_id_system_file ← all_id_loop system_filename_pattern system_filenames system_idset;
  match all_id_system_file with
  | [] => Raise IndexError                         (* [all_id_system_file[0]] *)
  | first :: _ =>
      pair_loop fs model_dir model_filenames_pattern all_id_system_file 0 first
  end.

(** The peer loop of [__get_eval_stringA]. *)
Fixpoint peer_elems_set (system_filenames : list peer) : string :=
  match system_filenames with
  | [] => EmptyString
  | eachpeer :: rest =>
      ("<P ID=" +:+ Py.dq +:+ peer_system_id eachpeer +:+ Py.dq +:+ ">"
       +:+ peer_filename eachpeer +:+ "</P>" +:+ elem_sep)
      +:+ peer_elems_set rest
  end.

(** [MyRouge155.__get_eval_stringA] *)
Definition __get_eval_stringA (task_id : nat) (system_dir : string)
    (system_filenames : list peer) (model_dir : string) (model_filenames : list string)
    : result string :=
  model_elems ← model_elems_from 0 model_filenames;
  Ok (eval_template (Py.str_of_nat task_id) model_dir system_dir
        (peer_elems_set system_filenames) (Py.join elem_sep model_elems)).

(** The [enumerate(sys_mod, start=1)] loop of [write_config_staticA]. *)
Fixpoint write_evalsA (config_file_path system_dir model_dir : string)
    (task_id : nat) (sys_mod : list (list peer * list string)) (fs : filesystem)
    : result unit * filesystem :=
  match sys_mod with
  | [] => (Ok (), fs)
  | (system_filenames, model_filenames) :: rest =>
      match __get_eval_stringA task_id system_dir system_filenames
              model_dir model_filenames with
      | Ok eval_string =>
          write_evalsA config_file_path system_dir model_dir (S task_id) rest
            (write config_file_path eval_string fs)
      | Raise e => (Raise e, fs)
      end
  end.

(** [MyRouge155.write_config_staticA]; [system_id] is the list of labels. *)
Definition write_config_staticA (system_dir system_filename_pattern
    model_dir model_filename_pattern config_file_path : string)
    (system_id : list string) (fs : filesystem) : result unit * filesystem :=
  match
    _ ← listdir fs system_dir;
    ProduceSysModPair fs system_dir model_dir system_id
      model_filename_pattern system_filename_pattern
  with
  | Raise e => (Raise e, fs)
  | Ok sys_mod =>
      let fs1 := write config_file_path rouge_header (open_w config_file_path fs) in
      match write_evalsA config_file_path system_dir model_dir 1 sys_mod fs1 with
      | (Ok _, fs2) => (Ok (), write config_file_path rouge_footer fs2)
      | (Raise e, fs2) => (Raise e, fs2)
      end
  end.

(** ** The instance: options and the command line *)

Record MyRouge155 : Type := {
  args : option string;     (* [self.args] *)
  _data_dir : string;
  _bin_path : string;
  _config_file : string
}.

Definition truthy (s : option string) : bool :=
  match s with
  | Some (String _ _) => true
  | _ => false
  end.

Definition quot_mark_pattern : string := Py.dq +:+ "(.+)" +:+ Py.dq.

(** [MyRouge155.__clean_rouge_args] *)
Definition __clean_rouge_args (rouge_args : option string) : result (option string) :=
  match rouge_args with
  | Some (String a s) =>
      let rouge_args := String a s in
      quot_mark_pattern ← Re.compile quot_mark_pattern;
      match Re.match_ quot_mark_pattern rouge_args with
      | Some m =>
          match Re.groups m !! 0%nat with
          | Some (Some cleaned_args) => Ok (Some cleaned_args)
          | Some None => Ok None
          | None => Raise IndexError
          end
      | None => Ok (Some rouge_args)
      end
  | _ => Ok None
  end.


(** [MyRouge155.__add_config_option] *)
Definition __add_config_option (self : MyRouge155) (options : list string) : list string :=
  options ++ ["-m"] ++ [_config_file self].

Definition default_options (self : MyRouge155) : list string :=
  ["-e"; _data_dir self; "-c"; Py.str_of_nat 95; "-U"; "-r"; Py.str_of_nat 1000;
   "-n"; Py.str_of_nat 4; "-a"].

(** [MyRouge155.__get_options] *)
Definition __get_options (self : MyRouge155) (rouge_args : option string) : list string :=
  let options :=
    if truthy (args self) then Py.split (default EmptyString (args self))
    else if truthy rouge_args then Py.split (default EmptyString rouge_args)
    else default_options self in
  __add_config_option self options.

(** The [command] that [MyRouge155.evaluate] hands to [check_output]. *)
Definition evaluate_command (self : MyRouge155) (PerlPath : string)
    (rouge_args : option string) : list string :=
  [PerlPath] ++ [_bin_path self] ++ __get_options self rouge_args.

(** ** Parsing the report: [output_to_dict] *)

Fixpoint all_digits (s : string) : bool :=
  match s with
  | EmptyString => true
  | String a s' => Py.is_digit a && all_digits s'
  end.

(** The number written by a string of decimal digits, most significant first. *)
Fixpoint digits_val (acc : Z) (s : string) : Z :=
  match s with
  | EmptyString => acc
  | String a s' => digits_val (10 * acc + Py.digit_val a) s'
  end.

(** [float(s)] on the strings the report pattern captures with [\d.\d+]: a
    digit, one arbitrary character, and at least one digit.  The middle
    character decides: a point gives a decimal fraction, a digit an integer
    numeral, [e] or [E] a power of ten; anything else is not a number. *)
Definition float (s : string) : result Q :=
  match s with
  | String d (String c (String f frac)) =>
      let frac := String f frac in
      if Py.is_digit d && all_digits frac then
        if bool_decide (c = "."%char) then
          Ok (Qmake (digits_val (Py.digit_val d) frac)
                    (Z.to_pos (10 ^ Z.of_nat (String.length frac))))
        else if Py.is_digit c then Ok (inject_Z (digits_val 0 s))
        else if bool_decide (c = "e"%char) || bool_decide (c = "E"%char) then
          Ok (inject_Z (Py.digit_val d * 10 ^ digits_val 0 frac))
        else Raise ValueError
      else Raise ValueError
  | _ => Raise ValueError
  end.

Definition report_pattern : string :=
  "(\d+) (ROUGE-\S+) (Average_\w): (\d.\d+) \(95%-conf.int. (\d.\d+) - (\d.\d+)\)".

(** The literal dictionary indexed by [measure]. *)
Definition measure_name (measure : string) : result string :=
  if bool_decide (measure = "Average_R") then Ok "recall"
  else if bool_decide (measure = "Average_P") then Ok "precision"
  else if bool_decide (measure = "Average_F") then Ok "f_score"
  else Raise (KeyError measure).

(** The body of the loop for one line that matched. *)
Definition add_line (groups : Re.caps) (results : gmap string Q)
    : result (gmap string Q) :=
  match groups with
  | [Some sys_id; Some rouge_type; Some measure; Some result_; Some conf_begin;
     Some conf_end] =>
      measure ← measure_name measure;
      let rouge_type := Py.replace "-" "_" (Py.lower rouge_type) in
      let key := rouge_type +:+ "_" +:+ measure in
      v ← float result_;
      let results := <[key := v]> results in
      cb ← float conf_begin;
      let results := <[key +:+ "_cb" := cb]> results in
      ce ← float conf_end;
      Ok (<[key +:+ "_ce" := ce]> results)
  | _ => Raise ValueError        (* unpacking anything but six strings *)
  end.

(** The [for line in output.split("\n")] loop. *)
Fixpoint lines_loop (pattern : Re.pattern) (lines : list string)
    (results : gmap string Q) : result (gmap string Q) :=
  match lines with
  | [] => Ok results
  | line :: rest =>
      match Re.match_ pattern line with
      | Some m =>
          results' ← add_line (Re.groups m) results;
          lines_loop pattern rest results'
      | None => lines_loop pattern rest results
      end
  end.

(** [MyRouge155.output_to_dict] *)
Definition output_to_dict (output : string) : result (gmap string Q) :=
  pattern ← Re.compile report_pattern;
  lines_loop pattern (Py.split_nl output) ∅.

(** The two fixed patterns of the program, compiled. *)
Definition quot_mark_re : Re.pattern :=
  Eval vm_compute in
    match Re.compile quot_mark_pattern with
    | Ok p => p
    | Raise _ => {| Re.ast := Re.Eps; Re.ngroups := 0; Re.source := EmptyString |}
    end.

Definition report_re : Re.pattern :=
  Eval vm_compute in
    match Re.compile report_pattern with
    | Ok p => p
    | Raise _ => {| Re.ast := Re.Eps; Re.ngroups := 0; Re.source := EmptyString |}
    end.

(** ** Reference definitions, following the specification's wording *)

Module Spec.

(** Pattern Matcher: the [(identifier, filename)] pairs of the files whose
    name the pattern matches from its start, by ascending filename; the
    identifier is the first capturing group. *)
Definition group1 (g : Re.caps) : ident :=
  match g with
  | Some text :: _ => IdStr text
  | _ => IdZero
  end.

Definition match_candidates (re : Re.pattern) (listing : list string)
    : list (ident * string) :=
  omap (fun f => m ← Re.match_ re f; Some (group1 (Re.groups m), f)) (Py.sorted listing).

(** Single-variant association: one task per candidate, in order, with its
    references resolved from the identifier and sorted. *)
Fixpoint resolve_candidates (fs : filesystem) (model_dir model_pattern : string)
    (cands : list (ident * string)) : result (list (string * list string)) :=
  match cands with
  | [] => Ok []
  | (id, f) :: rest =>
      refs ← __get_model_filenames_for_id fs id model_dir model_pattern;
      tasks ← resolve_candidates fs model_dir model_pattern rest;
      Ok ((f, Py.sorted refs) :: tasks)
  end.

(** Multi-variant association: the task at position [i]: the peers found at index [i] of every
    system's list, and the models of the identifier [id]. *)
Definition task_at (fs : filesystem) (model_dir model_pattern : string)
    (all : list (list peer)) (i : nat) (id : ident) (task : list peer * list string) : Prop :=
  __get_model_filenames_for_id fs id model_dir model_pattern = Ok task.2
  ∧ Forall2 (fun (variant : list peer) q => variant !! i = Some q) all task.1.

(** Document Generator: letter codes and 1-based task numbers. *)
Definition alphabet : string := "ABCDEFGHIJKLMNOPQRSTUVWXYZ".

Definition letter (i : nat) : string :=
  match String.get i alphabet with
  | Some a => String a EmptyString
  | None => EmptyString
  end.

Definition reference_entries (refs : list string) : list string :=
  imap (fun i name => "<M ID=" +:+ Py.dq +:+ letter i +:+ Py.dq +:+ ">" +:+ name +:+ "</M>")
    refs.

Definition task_text (system_root model_root : string) (task_id : nat)
    (task : list peer * list string) : string :=
  eval_template (Py.str_of_nat task_id) model_root system_root
    (peer_elems_set task.1) (Py.join elem_sep (reference_entries task.2)).

Definition concat_text (l : list string) : string := foldr String.append EmptyString l.

Definition document (system_root model_root : string)
    (tasks : list (list peer * list string)) : string :=
  rouge_header
  +:+ concat_text (imap (fun i task => task_text system_root model_root (S i) task) tasks)
  +:+ rouge_footer.

(** Output Parser: the six fields of a report line, and the three entries
    the line contributes. *)
Definition line_fields (line : string) : option (list string) :=
  match Re.compile report_pattern with
  | Ok re => m ← Re.match_ re line; Some (omap id (Re.groups m))
  | Raise _ => None
  end.

Definition measure_label (measure : string) : string :=
  if bool_decide (measure = "Average_R") then "recall"
  else if bool_decide (measure = "Average_P") then "precision"
  else "f_score".

Definition metric_key (metric measure : string) : string :=
  Py.replace "-" "_" (Py.lower metric) +:+ "_" +:+ measure_label measure.

Definition value_of (numeral : string) : Q :=
  match float numeral with
  | Ok q => q
  | Raise _ => 0%Q
  end.

Definition line_entries (line : string) : list (string * Q) :=
  match line_fields line with
  | Some [_; metric; measure; v; lo; hi] =>
      let key := metric_key metric measure in
      [(key, value_of v); (key +:+ "_cb", value_of lo); (key +:+ "_ce", value_of hi)]
  | _ => []
  end.

(** The mapping built by assigning the entries in order: a later entry
    replaces an earlier one under the same key. *)
Definition collect (entries : list (string * Q)) : gmap string Q :=
  foldl (fun acc e => <[e.1 := e.2]> acc) ∅ entries.

(** A report line as the scorer prints it: one of the three measures and
    three numerals that [float] accepts. *)
Definition well_formed_line (line : string) : Prop :=
  match line_fields line with
  | Some [_; _; measure; v; lo; hi] =>
      measure ∈ ["Average_R"; "Average_P"; "Average_F"]
      ∧ is_ok (float v) ∧ is_ok (float lo) ∧ is_ok (float hi)
  | Some _ => False
  | None => True
  end.

End Spec.

(** ** Sample inputs

    The end-to-end scenario of the specification, a several-systems
    directory in the style of [TestMyRouge], and a few degenerate
    directories. *)

Module Sample.

Definition system_pattern : string := "sys-(\d+)\.html".
Definition model_pattern : string := "ref-#ID#-[A-Z]\.html".
Definition peers_pattern : string := "P14-(\d+).xhtml.html".
Definition p14_model_pattern : string := "p14-#ID#.xhtml.[A-Z].html".

Definition fs : filesystem := {|
  dirs := {[
    "systems" := ["sys-002.html"; "sys-001.html"];
    "models" := ["ref-001-B.html"; "ref-002-A.html"; "ref-001-A.html"];
    "unreferenced" := ["sys-003.html"; "sys-001.html"];
    "peers" := ["P14-2.xhtml.html.01"; "P14-1.xhtml.html.01"; "notes.txt";
                "P14-1.xhtml.html.02"; "P14-2.xhtml.html.02"];
    "p14models" := ["p14-2.xhtml.B.html"; "p14-1.xhtml.A.html"; "p14-2.xhtml.A.html"];
    "empty" := []
  ]};
  files := ∅
|}.

Definition config_path : string := "rouge_conf.xml".

Definition system_re : Re.pattern :=
  Eval vm_compute in
    match Re.compile system_pattern with
    | Ok p => p
    | Raise _ => {| Re.ast := Re.Eps; Re.ngroups := 0; Re.source := EmptyString |}
    end.

Definition peers_listing : list string :=
  ["P14-2.xhtml.html.01"; "P14-1.xhtml.html.01"; "notes.txt";
   "P14-1.xhtml.html.02"; "P14-2.xhtml.html.02"].

Definition peers_lists : list (list peer) :=
  Eval vm_compute in
    match all_id_loop peers_pattern peers_listing ["01"; "02"] with
    | Ok all => all
    | Raise _ => []
    end.

Definition peers_tasks : list (list peer * list string) :=
  Eval vm_compute in
    match ProduceSysModPair fs "peers" "p14models" ["01"; "02"]
            p14_model_pattern peers_pattern with
    | Ok tasks => tasks
    | Raise _ => []
    end.

Definition report_line : string :=
  "1 ROUGE-1 Average_F: 0.95652 (95%-conf.int. 0.94000 - 0.97000)".

End Sample.

(** ** Converting a summary: [convert_text_to_rouge_format] *)

(** One element of [sent_elems]: the sentence [sent] with its number [i]. *)
Definition sent_elem (i : nat) (sent : string) : string :=
  "<a name=" +:+ Py.dq +:+ Py.str_of_nat i +:+ Py.dq +:+ ">[" +:+ Py.str_of_nat i
  +:+ "]</a> <a href=" +:+ Py.dq +:+ "#" +:+ Py.str_of_nat i +:+ Py.dq
  +:+ " id=" +:+ Py.str_of_nat i +:+ ">" +:+ sent +:+ "</a>".

(** The comprehension over [enumerate(sentences, start=i)]. *)
Fixpoint sent_elems_from (i : nat) (sentences : list string) : list string :=
  match sentences with
  | [] => []
  | sent :: rest => sent_elem i sent :: sent_elems_from (S i) rest
  end.

Definition sent_elems (text : string) : list string :=
  sent_elems_from 1 (Py.split_nl text).

(** [MyRouge155.convert_text_to_rouge_format] *)
Definition convert_text_to_rouge_format (text title : string) : string :=
  "<html>" +:+ Py.nl +:+
  "<head>" +:+ Py.nl +:+
  "<title>" +:+ title +:+ "</title>" +:+ Py.nl +:+
  "</head>" +:+ Py.nl +:+
  "<body bgcolor=" +:+ Py.dq +:+ "white" +:+ Py.dq +:+ ">" +:+ Py.nl +:+
  Py.join Py.nl (sent_elems text) +:+ Py.nl +:+
  "</body>" +:+ Py.nl +:+
  "</html>".

(** ** Further reference definitions *)

Module More.

(** The text of one task of [write_config_static]: a single peer entry
    whose ID is the system ID, and the lettered references. *)
Definition static_task_text (system_id system_root model_root : string) (task_id : nat)
    (task : string * list string) : string :=
  eval_template (Py.str_of_nat task_id) model_root system_root
    ("<P ID=" +:+ Py.dq +:+ system_id +:+ Py.dq +:+ ">" +:+ task.1 +:+ "</P>")
    (Py.join elem_sep (Spec.reference_entries task.2)).

Definition static_document (system_id system_root model_root : string)
    (tasks : list (string * list string)) : string :=
  rouge_header
  +:+ Spec.concat_text
        (imap (fun i task => static_task_text system_id system_root model_root (S i) task)
           tasks)
  +:+ rouge_footer.

(** Two file systems that hold the same files and list the same entries
    in every directory, possibly in another order. *)
Definition same_listings (fs fs' : filesystem) : Prop :=
  files fs = files fs'
  ∧ ∀ d, match dirs fs !! d, dirs fs' !! d with
         | Some l, Some l' => l ≡ₚ l'
         | None, None => True
         | _, _ => False
         end.

(** Two results that agree up to the order of the names returned. *)
Definition same_names (r r' : result (list string)) : Prop :=
  match r, r' with
  | Ok l, Ok l' => l ≡ₚ l'
  | Raise e, Raise e' => e = e'
  | _, _ => False
  end.

(** A reference entry whose ID is the character with code [65 + i]. *)
Definition coded_entry (i : nat) (name : string) : string :=
  "<M ID=" +:+ Py.dq +:+ String (ascii_of_nat (65 + i)) EmptyString +:+ Py.dq
  +:+ ">" +:+ name +:+ "</M>".

(** No quotation mark occurs in the text. *)
Fixpoint no_quote (s : string) : bool :=
  match s with
  | EmptyString => true
  | String a s' => negb (bool_decide (a = "034"%char)) && no_quote s'
  end.

(** The keys a list of entries assigns. *)
Definition keys (entries : list (string * Q)) : list string := entries.*1.

(** Sample inputs for the properties below. *)
Definition many_models : list string :=
  (fun i => "m" +:+ Py.str_of_nat i) <$> seq 0 64.

Definition fs : filesystem := {|
  dirs := {[
    "systems" := ["sys-002.html"; "sys-001.html"];
    "models" := ["ref-001-B.html"; "ref-002-A.html"; "ref-001-A.html"];
    "peers" := ["P14-2.xhtml.html.01"; "P14-1.xhtml.html.01"; "notes.txt";
                "P14-1.xhtml.html.02"; "P14-2.xhtml.html.02"];
    "ragged" := ["P14-2.xhtml.html.01"; "P14-1.xhtml.html.01"; "P14-1.xhtml.html.02"];
    "p14models" := ["p14-2.xhtml.B.html"; "p14-1.xhtml.A.html"; "p14-2.xhtml.A.html"];
    "crowd" := many_models
  ]};
  files := {[ "notes.txt" := "keep" ]}
|}.

(** The same directories, with an earlier document at the configuration
    path. *)
Definition fs_stale : filesystem := {|
  dirs := dirs fs;
  files := {[ "rouge_conf.xml" := "<ROUGE-EVAL version=1.0>stale</ROUGE-EVAL>" ]}
|}.

(** The same directories, two of them listed in another order. *)
Definition fs_reordered : filesystem := {|
  dirs := {[
    "systems" := ["sys-001.html"; "sys-002.html"];
    "models" := ["ref-002-A.html"; "ref-001-A.html"; "ref-001-B.html"];
    "peers" := ["P14-2.xhtml.html.01"; "P14-1.xhtml.html.01"; "notes.txt";
                "P14-1.xhtml.html.02"; "P14-2.xhtml.html.02"];
    "ragged" := ["P14-2.xhtml.html.01"; "P14-1.xhtml.html.01"; "P14-1.xhtml.html.02"];
    "p14models" := ["p14-2.xhtml.B.html"; "p14-1.xhtml.A.html"; "p14-2.xhtml.A.html"];
    "crowd" := many_models
  ]};
  files := {[ "notes.txt" := "keep" ]}
|}.

Definition ragged_lists : list (list peer) :=
  Eval vm_compute in
    match all_id_loop Sample.peers_pattern
            ["P14-2.xhtml.html.01"; "P14-1.xhtml.html.01"; "P14-1.xhtml.html.02"]
            ["01"; "02"] with
    | Ok all => all
    | Raise _ => []
    end.

Definition static_tasks : list (string * list string) :=
  Eval vm_compute in
    match system_models_loop fs Sample.system_re "models" Sample.model_pattern
            (Py.sorted ["sys-002.html"; "sys-001.html"]) with
    | Ok tuples => tuples
    | Raise _ => []
    end.

End More.

(** ** A model directory with many references for one identifier *)

Module Crowded.

(** The text [__get_eval_stringA] produces for a task: its peers, and its
    references with the character of code [65 + i] as ID of the [i]-th. *)
Definition coded_task_text (system_root model_root : string) (task_id : nat)
    (task : list peer * list string) : string :=
  eval_template (Py.str_of_nat task_id) model_root system_root
    (peer_elems_set task.1) (Py.join elem_sep (imap More.coded_entry task.2)).

Definition model_pattern : string := "p#ID#-\w+".

(** Two models for identifier 1 and sixty-four for identifier 2. *)
Definition models : list string :=
  "p1-A" :: "p1-B" :: ((fun i => "p2-m" +:+ Py.str_of_nat i) <$> seq 0 64).

Definition fs : filesystem := {|
  dirs := {[
    "peers" := ["P14-2.xhtml.html.01"; "P14-1.xhtml.html.01";
                "P14-1.xhtml.html.02"; "P14-2.xhtml.html.02"];
    "crowded" := models
  ]};
  files := {[ "notes.txt" := "keep" ]}
|}.

(** The task of identifier 1, which precedes the crowded one. *)
Definition first_task : list peer * list string :=
  Eval vm_compute in
    match ProduceSysModPair fs "peers" "crowded" ["01"; "02"] model_pattern
            Sample.peers_pattern with
    | Ok (task :: _) => task
    | _ => ([], [])
    end.

End Crowded.

(** * Properties *)

(** ** The matcher against its declarative reading *)

Section matcher.
Import Re.

Lemma star_loop_sound body r k
    (Hbody : ∀ s c k' x, body s c k' = Some x →
             ∃ s' c', reach r s c s' c' ∧ k' s' c' = Some x) :
  ∀ fuel s c x, star_loop body k fuel s c = Some x →
  ∃ s' c', reach (Star r) s c s' c' ∧ k s' c' = Some x.
Proof.
  induction fuel as [|fuel IH]; intros s c x H; simpl in H.
  - exists s, c. split; [constructor | done].
  - destruct (body s c _) as [y|] eqn:Hb.
    + injection H as ->.
      apply Hbody in Hb as (s1 & c1 & Hr & Hk).
      destruct (String.length s1 <? String.length s)%nat eqn:Hlt; [|done].
      apply Nat.ltb_lt in Hlt.
      apply IH in Hk as (s2 & c2 & Hstar & Hk).
      exists s2, c2. split; [|done]. by eapply reach_star_step.
    + exists s, c. split; [constructor | done].
Qed.

Lemma rmatch_sound r : ∀ s c k x, rmatch r s c k = Some x →
  ∃ s' c', reach r s c s' c' ∧ k s' c' = Some x.
Proof.
  induction r as [|a| |neg items|r1 IH1 r2 IH2|r1 IH1 r2 IH2|r IH|n r IH|];
    intros s c k x H; simpl in H.
  - exists s, c. split; [constructor | done].
  - destruct s as [|b s]; [done|]. case_bool_decide; [subst|done].
    exists s, c. split; [constructor | done].
  - destruct s as [|b s]; [done|]. case_bool_decide; [done|].
    exists s, c. split; [by constructor | done].
  - destruct s as [|b s]; [done|]. destruct (cls_matches neg items b) eqn:Hc; [|done].
    exists s, c. split; [by constructor | done].
  - apply IH1 in H as (s1 & c1 & Hr1 & H).
    apply IH2 in H as (s2 & c2 & Hr2 & H).
    exists s2, c2. split; [by econstructor | done].
  - destruct (rmatch r1 s c k) as [y|] eqn:H1.
    + injection H as ->. apply IH1 in H1 as (s1 & c1 & Hr & Hk).
      exists s1, c1. split; [by apply reach_alt_l | done].
    + apply IH2 in H as (s1 & c1 & Hr & Hk).
      exists s1, c1. split; [by apply reach_alt_r | done].
  - by eapply star_loop_sound.
  - apply IH in H as (s1 & c1 & Hr & Hk).
    eexists _, _. split; [by apply reach_group | done].
  - destruct (bool_decide (s = EmptyString) || bool_decide (s = Py.nl)) eqn:Hs; [|done].
    exists s, c. split; [|done]. constructor.
    apply orb_true_iff in Hs as [Hs|Hs]; apply bool_decide_eq_true in Hs; auto.
Qed.

(** A successful [match_] is a run of the declarative matcher. *)
Lemma match_reach p s rest g :
  match_ p s = Some (rest, g) → reach (ast p) s (replicate (ngroups p) None) rest g.
Proof.
  unfold match_. intros H.
  apply rmatch_sound in H as (s' & c' & Hr & [= -> ->]). done.
Qed.

Lemma reach_length r s c s' c' : reach r s c s' c' → length c' = length c.
Proof. induction 1; try done; try congruence. by rewrite length_insert. Qed.

Lemma reach_anchored r s c s' c' :
  reach r s c s' c' → anchored r = true → s' = EmptyString ∨ s' = Py.nl.
Proof.
  induction 1; simpl; intros Ha; try done; auto.
  - apply andb_true_iff in Ha as [? ?]; auto.
  - apply andb_true_iff in Ha as [? ?]; auto.
Qed.

Lemma reach_keeps n r s c s' c' : reach r s c s' c' → set_at n c → set_at n c'.
Proof.
  induction 1; auto. intros Hc. specialize (IHreach Hc). destruct IHreach as [t Ht].
  destruct (decide (n0 = n)) as [->|Hne].
  - eexists. apply list_lookup_insert_eq. by eapply lookup_lt_Some.
  - exists t. by rewrite list_lookup_insert_ne.
Qed.

Lemma reach_mandatory n r s c s' c' :
  reach r s c s' c' → mandatory n r = true → (n < length c)%nat → set_at n c'.
Proof.
  induction 1; simpl; intros Hm Hn; try done.
  - apply orb_true_iff in Hm as [Hm|Hm].
    + eapply reach_keeps; [done|]. auto.
    + apply IHreach2; [done|]. by erewrite reach_length.
  - apply andb_true_iff in Hm as [? ?]; auto.
  - apply andb_true_iff in Hm as [? ?]; auto.
  - destruct (decide (n0 = n)) as [->|Hne].
    + eexists. apply list_lookup_insert_eq. by erewrite reach_length.
    + apply orb_true_iff in Hm as [Hm|Hm]; [by apply bool_decide_eq_true in Hm|].
      destruct (IHreach Hm Hn) as [t Ht]. exists t. by rewrite list_lookup_insert_ne.
Qed.

Lemma match_groups_length p s m : match_ p s = Some m → length (groups m) = ngroups p.
Proof.
  destruct m as [rest g]. intros H%match_reach.
  apply reach_length in H. simpl. by rewrite H, length_replicate.
Qed.

Lemma match_group_set p s m n :
  match_ p s = Some m → mandatory n (ast p) = true → (n < ngroups p)%nat →
  set_at n (groups m).
Proof.
  destruct m as [rest g]. intros H%match_reach Hm Hn.
  eapply reach_mandatory; [done..|]. by rewrite length_replicate.
Qed.

End matcher.

(** ** Association Resolver, several systems *)

Lemma bind_Ok {A B} (m : result A) (f : A → result B) b :
  m ≫= f = Ok b ↔ ∃ a, m = Ok a ∧ f a = Ok b.
Proof.
  destruct m as [a|e]; simpl; split.
  - intros H. by exists a.
  - by intros (a' & [= ->] & H).
  - done.
  - by intros (a' & [=] & _).
Qed.

Lemma system_id_set_at_spec i all peers :
  system_id_set_at i all = Ok peers ↔
  Forall2 (fun (variant : list peer) q => variant !! i = Some q) all peers.
Proof.
  revert peers. induction all as [|variant all IH]; intros peers; simpl.
  - split; [intros [= <-]; constructor | by inversion 1].
  - destruct (variant !! i) as [p|] eqn:Hp.
    + rewrite bind_Ok. split.
      * intros (ps & Hps & [= <-]). constructor; [done|]. by apply IH.
      * inversion 1 as [|? q ? ps Hq Hall]; subst. rewrite Hp in Hq. injection Hq as ->.
        exists ps. split; [by apply IH | done].
    + split; [done|]. inversion 1; congruence.
Qed.

Lemma pair_loop_spec fs md mpat all first : ∀ i tasks,
  pair_loop fs md mpat all i first = Ok tasks ↔
  length tasks = length first
  ∧ ∀ k p, first !! k = Some p →
      ∃ task, tasks !! k = Some task ∧ Spec.task_at fs md mpat all (i + k) (peer_id p) task.
Proof.
  induction first as [|p0 first IH]; intros i tasks; simpl.
  - split.
    + intros [= <-]. split; [done|]. intros k p Hk. by rewrite lookup_nil in Hk.
    + intros [Hlen _]. by destruct tasks.
  - split.
    + intros H. apply bind_Ok in H as (refs & Hrefs & H).
      apply bind_Ok in H as (peers & Hpeers & H).
      apply bind_Ok in H as (tl & Htl & [= <-]).
      apply IH in Htl as [Hlen Htl]. split; [simpl; by rewrite Hlen|].
      intros [|k] p Hk; simpl in Hk.
      * injection Hk as <-. exists (peers, refs). split; [done|].
        split; [exact Hrefs|]. rewrite Nat.add_0_r. by apply system_id_set_at_spec.
      * destruct (Htl k p Hk) as (task & Ht & Hat). exists task. split; [done|].
        by replace (i + S k)%nat with (S i + k)%nat by lia.
    + intros [Hlen H]. destruct tasks as [|[peers refs] tl]; [done|].
      destruct (H 0%nat p0 eq_refl) as (task & [= <-] & Hrefs & Hpeers).
      cbn [fst snd] in Hrefs, Hpeers. rewrite Nat.add_0_r in Hpeers.
      apply system_id_set_at_spec in Hpeers.
      assert (pair_loop fs md mpat all (S i) first = Ok tl) as Htl.
      { apply IH. split; [simpl in Hlen; lia|].
        intros k p Hk. destruct (H (S k) p Hk) as (task & Ht & Hat).
        exists task. split; [done|]. by replace (S i + k)%nat with (i + S k)%nat by lia. }
      rewrite Hrefs. cbn [mbind result_bind]. rewrite Hpeers. cbn [mbind result_bind].
      by rewrite Htl.
Qed.

(** C1. In the several-systems mode, with at least one label,
    [ProduceSysModPair] succeeds with [tasks] exactly when the listing and
    the per-label candidate lists are obtained and [tasks] is their
    positional zip: one task per entry of the first label's list, whose
    peers are the entries found at the same index in every label's list and
    whose models are resolved from the identifier of the first label's
    entry at that index. *)
Theorem ProduceSysModPair_zips fs system_dir model_dir label labels mpat spat tasks :
  ProduceSysModPair fs system_dir model_dir (label :: labels) mpat spat = Ok tasks ↔
  ∃ names first others,
    listdir fs system_dir = Ok names
    ∧ all_id_loop spat names (label :: labels) = Ok (first :: others)
    ∧ length tasks = length first
    ∧ ∀ i p, first !! i = Some p →
        ∃ peers models,
          tasks !! i = Some (peers, models)
          ∧ __get_model_filenames_for_id fs (peer_id p) model_dir mpat = Ok models
          ∧ Forall2 (fun (variant : list peer) q => variant !! i = Some q)
              (first :: others) peers.
Proof.
  unfold ProduceSysModPair. split.
  - intros H. apply bind_Ok in H as (names & Hnames & H).
    apply bind_Ok in H as (all & Hall & H).
    destruct all as [|first others].
    { simpl in Hall. apply bind_Ok in Hall as (? & _ & Hall).
      apply bind_Ok in Hall as (? & _ & Hall).
      by apply bind_Ok in Hall as (? & _ & Hall). }
    apply pair_loop_spec in H as [Hlen H].
    exists names, first, others. repeat split; [done..|].
    intros i p Hp. destruct (H i p Hp) as ([peers models] & Ht & Hm & Hpeers).
    by exists peers, models.
  - intros (names & first & others & Hnames & Hall & Hlen & H).
    rewrite Hnames. cbn [mbind result_bind]. rewrite Hall. cbn [mbind result_bind].
    apply pair_loop_spec. split; [done|].
    intros k p Hp. destruct (H k p Hp) as (peers & models & Ht & Hm & Hpeers).
    exists (peers, models). by repeat split.
Qed.

(** ** Missing references *)

Lemma system_models_loop_app fs sre md mpat l1 l2 :
  system_models_loop fs sre md mpat (l1 ++ l2) =
  t1 ← system_models_loop fs sre md mpat l1;
  t2 ← system_models_loop fs sre md mpat l2;
  Ok (t1 ++ t2).
Proof.
  induction l1 as [|f l1 IH]; simpl.
  - by destruct (system_models_loop fs sre md mpat l2).
  - destruct (Re.match_ sre f) as [m|]; [|done].
    destruct (first_group m) as [id|]; [|done]. cbn [mbind result_bind].
    destruct (__get_model_filenames_for_id fs id md mpat) as [refs|]; [|done].
    cbn [mbind result_bind]. rewrite IH.
    destruct (system_models_loop fs sre md mpat l1) as [t1|]; [|done].
    cbn [mbind result_bind].
    by destruct (system_models_loop fs sre md mpat l2).
Qed.

Lemma pair_loop_app fs md mpat all l1 l2 : ∀ i,
  pair_loop fs md mpat all i (l1 ++ l2) =
  t1 ← pair_loop fs md mpat all i l1;
  t2 ← pair_loop fs md mpat all (i + length l1) l2;
  Ok (t1 ++ t2).
Proof.
  induction l1 as [|p l1 IH]; intros i; simpl.
  - rewrite Nat.add_0_r. by destruct (pair_loop fs md mpat all i l2).
  - destruct (__get_model_filenames_for_id fs (peer_id p) md mpat) as [refs|]; [|done].
    cbn [mbind result_bind].
    destruct (system_id_set_at i all) as [peers|]; [|done].
    cbn [mbind result_bind]. rewrite IH.
    replace (S i + length l1)%nat with (i + S (length l1))%nat by lia.
    destruct (pair_loop fs md mpat all (S i) l1) as [t1|]; [|done].
    cbn [mbind result_bind].
    by destruct (pair_loop fs md mpat all (i + S (length l1)) l2).
Qed.

Lemma no_match_filter re names :
  Forall (fun f => ¬ matches re f) names → filter (matches re) names = [].
Proof.
  induction 1 as [|f names Hf _ IH]; [done|].
  rewrite filter_cons. by destruct (decide (matches re f)).
Qed.

(** C2. When the model pattern with the identifier substituted matches no
    name of the model directory, reference resolution raises the exception
    whose message carries the identifier and the pattern.  A run of either
    configuration writer that reaches a candidate with that identifier
    aborts and leaves the file system as it was, so no document exists; the
    abort is with that very exception when the candidates before it
    resolved. *)
Theorem missing_references_abort fs id model_dir mpat re names :
  Re.compile (Py.replace "#ID#" id mpat) = Ok re →
  listdir fs model_dir = Ok names →
  Forall (fun f => ¬ matches re f) names →
  let e := Exception ("Could not find any model summaries for the system summary with ID "
                      +:+ id +:+ ". Specified model filename pattern was: " +:+ mpat) in
  __get_model_filenames_for_id fs (IdStr id) model_dir mpat = Raise e
  ∧ (∀ system_dir spat cfg system_id sre listing before f m after,
       listdir fs system_dir = Ok listing →
       Re.compile spat = Ok sre →
       Py.sorted listing = before ++ f :: after →
       Re.match_ sre f = Some m →
       first_group m = Ok (IdStr id) →
       ∃ e', write_config_static system_dir spat model_dir mpat cfg system_id fs
             = (Raise e', fs)
           ∧ (is_ok (system_models_loop fs sre model_dir mpat before) → e' = e))
  ∧ (∀ system_dir spat cfg labels listing first others before p after,
       listdir fs system_dir = Ok listing →
       all_id_loop spat listing labels = Ok (first :: others) →
       first = before ++ p :: after →
       peer_id p = IdStr id →
       ∃ e', write_config_staticA system_dir spat model_dir mpat cfg labels fs
             = (Raise e', fs)
           ∧ (is_ok (pair_loop fs model_dir mpat (first :: others) 0 before) → e' = e)).
Proof.
  intros Hre Hnames Hnone e.
  assert (__get_model_filenames_for_id fs (IdStr id) model_dir mpat = Raise e) as Hget.
  { unfold __get_model_filenames_for_id. cbn [mbind result_bind].
    rewrite Hre. cbn [mbind result_bind]. rewrite Hnames. cbn [mbind result_bind].
    by rewrite no_match_filter. }
  split; [done|]. split.
  - intros system_dir spat cfg system_id sre listing before f m after
      Hlist Hsre Hsorted Hm Hid.
    unfold write_config_static. rewrite Hlist. cbn [mbind result_bind].
    rewrite Hsre. cbn [mbind result_bind].
    rewrite Hsorted, system_models_loop_app.
    assert (system_models_loop fs sre model_dir mpat (f :: after) = Raise e) as Hf.
    { simpl. rewrite Hm, Hid. cbn [mbind result_bind]. by rewrite Hget. }
    destruct (system_models_loop fs sre model_dir mpat before) as [t1|e1].
    + cbn [mbind result_bind]. rewrite Hf. cbn [mbind result_bind]. by exists e.
    + cbn [mbind result_bind]. exists e1. split; [done|]. by intros [].
  - intros system_dir spat cfg labels listing first others before p after
      Hlist Hall -> Hid.
    unfold write_config_staticA, ProduceSysModPair.
    rewrite Hlist. cbn [mbind result_bind]. rewrite Hall. cbn [mbind result_bind].
    rewrite pair_loop_app.
    assert (pair_loop fs model_dir mpat ((before ++ p :: after) :: others)
              (0 + length before) (p :: after) = Raise e) as Hp.
    { simpl. rewrite Hid, Hget. done. }
    destruct (pair_loop fs model_dir mpat _ 0 before) as [t1|e1].
    + cbn [mbind result_bind]. rewrite Hp. cbn [mbind result_bind]. by exists e.
    + cbn [mbind result_bind]. exists e1. split; [done|]. by intros [].
Qed.

(** ** Empty candidate sets *)

Lemma sorted_Forall (P : string → Prop) l : Forall P l → Forall P (Py.sorted l).
Proof.
  intros H. unfold Py.sorted. by rewrite merge_sort_Permutation.
Qed.

Lemma system_models_loop_none fs sre md mpat names :
  Forall (fun f => ¬ matches sre f) names →
  system_models_loop fs sre md mpat names = Ok [].
Proof.
  induction 1 as [|f names Hf _ IH]; [done|]. simpl.
  destruct (Re.match_ sre f) as [m|] eqn:Hm; [|done].
  destruct Hf. unfold matches. by rewrite Hm.
Qed.

(** X15. The single-system writer rejects an empty candidate set before
    it opens the configuration file: when the pattern matches no name of
    the system directory it raises the exception that names the pattern
    and the directory, and the file system stays as it was. *)
Lemma write_config_static_no_candidates fs system_dir spat model_dir mpat cfg system_id
    sre listing :
  listdir fs system_dir = Ok listing →
  Re.compile spat = Ok sre →
  Forall (fun f => ¬ matches sre f) listing →
  write_config_static system_dir spat model_dir mpat cfg system_id fs
  = (Raise (Exception (no_system_files_msg (Re.source sre) system_dir)), fs).
Proof.
  intros Hlist Hsre Hnone. unfold write_config_static.
  rewrite Hlist. cbn [mbind result_bind]. rewrite Hsre. cbn [mbind result_bind].
  rewrite system_models_loop_none by by apply sorted_Forall. done.
Qed.

(** The several-systems writer does not: when the first label has
    no candidate, whatever the other labels found, it reports success and
    leaves a document that holds the header and the footer and no task. *)
Lemma write_config_staticA_no_candidates fs system_dir spat model_dir mpat cfg labels
    listing others :
  listdir fs system_dir = Ok listing →
  all_id_loop spat listing labels = Ok ([] :: others) →
  write_config_staticA system_dir spat model_dir mpat cfg labels fs
  = (Ok (), write cfg rouge_footer (write cfg rouge_header (open_w cfg fs))).
Proof.
  intros Hlist Hall. unfold write_config_staticA, ProduceSysModPair.
  rewrite Hlist. cbn [mbind result_bind]. rewrite Hall. done.
Qed.

(** C3. Evaluation at an empty system directory: [write_config_static]
    raises and writes nothing, while [write_config_staticA] returns
    normally and leaves a configuration document with no task in it. *)
Theorem empty_candidates_staticA_writes_document :
  write_config_static "empty" Sample.system_pattern "models" Sample.model_pattern
    Sample.config_path "None" Sample.fs
  = (Raise (Exception
       "Did not find any files matching the pattern sys-(\d+)\.html in the system summaries directory empty."),
     Sample.fs)
  ∧ ∃ fs', write_config_staticA "empty" Sample.system_pattern "models" Sample.model_pattern
             Sample.config_path ["01"] Sample.fs = (Ok (), fs')
         ∧ files fs' !! Sample.config_path = Some (rouge_header +:+ rouge_footer).
Proof.
  split; [by vm_compute|].
  eexists. split; [by vm_compute | by vm_compute].
Qed.

(** ** Order of the references *)

(** What [__get_model_filenames_for_id] returns: the matching names in the
    order of the directory listing. *)
Lemma get_model_filenames_listing_order fs id model_dir mpat refs :
  __get_model_filenames_for_id fs id model_dir mpat = Ok refs →
  ∃ text re names,
    id = IdStr text
    ∧ Re.compile (Py.replace "#ID#" text mpat) = Ok re
    ∧ listdir fs model_dir = Ok names
    ∧ refs = filter (matches re) names
    ∧ refs ≠ [].
Proof.
  unfold __get_model_filenames_for_id. intros H.
  apply bind_Ok in H as (text & Hid & H). apply bind_Ok in H as (re & Hre & H).
  apply bind_Ok in H as (names & Hnames & H).
  exists text, re, names. destruct id; [|done]. injection Hid as ->.
  destruct (filter (matches re) names) eqn:Hf; [done|]. injection H as <-.
  by repeat split.
Qed.

(** On the single-system path the references of every task are sorted. *)
Lemma system_models_loop_references_sorted fs sre md mpat names : ∀ tuples,
  system_models_loop fs sre md mpat names = Ok tuples →
  Forall (fun t : string * list string => StronglySorted String.le t.2) tuples.
Proof.
  induction names as [|f names IH]; intros tuples H; simpl in H.
  - injection H as <-. constructor.
  - destruct (Re.match_ sre f) as [m|]; [|by apply IH].
    apply bind_Ok in H as (id & _ & H). apply bind_Ok in H as (refs & _ & H).
    apply bind_Ok in H as (tl & Htl & [= <-]).
    constructor; [|by apply IH]. apply StronglySorted_merge_sort; apply _.
Qed.

(** C4. Evaluation on a model directory listed out of order: the task
    built by [ProduceSysModPair] carries the references in listing order,
    which is not ascending, while [write_config_static] would sort them. *)
Theorem ProduceSysModPair_references_unsorted :
  ∃ task1 peers,
    ProduceSysModPair Sample.fs "peers" "p14models" ["01"; "02"]
      Sample.p14_model_pattern Sample.peers_pattern
    = Ok [task1; (peers, ["p14-2.xhtml.B.html"; "p14-2.xhtml.A.html"])]
  ∧ ¬ Sorted String.le ["p14-2.xhtml.B.html"; "p14-2.xhtml.A.html"]
  ∧ Py.sorted ["p14-2.xhtml.B.html"; "p14-2.xhtml.A.html"]
    = ["p14-2.xhtml.A.html"; "p14-2.xhtml.B.html"].
Proof.
  eexists _, _. split; [by vm_compute|]. split; [|by vm_compute].
  intros H. inversion H as [|x l _ Hhd]; subst. inversion Hhd as [|y l' Hle]; subst.
  by vm_compute in Hle.
Qed.

(** ** Pattern Matcher *)

Lemma append_cons a s t : String a s +:+ t = String a (s +:+ t).
Proof. reflexivity. Qed.

Lemma append_assoc (s t u : string) : (s +:+ t) +:+ u = s +:+ (t +:+ u).
Proof.
  induction s as [|a s IH]; [done|]. by rewrite !append_cons, IH.
Qed.

Lemma append_nil_r (s : string) : s +:+ EmptyString = s.
Proof.
  induction s as [|a s IH]; [done|]. by rewrite append_cons, IH.
Qed.

Lemma reach_suffix r s c s' c' : Re.reach r s c s' c' → ∃ pre, s = pre +:+ s'.
Proof.
  induction 1; try (by exists EmptyString); try done.
  - by exists (String a EmptyString).
  - by exists (String a EmptyString).
  - by exists (String a EmptyString).
  - destruct IHreach1 as [p1 ->], IHreach2 as [p2 ->].
    exists (p1 +:+ p2). by rewrite append_assoc.
  - destruct IHreach1 as [p1 ->], IHreach2 as [p2 ->].
    exists (p1 +:+ p2). by rewrite append_assoc.
Qed.

Lemma first_group_group1 re f m :
  (0 < Re.ngroups re)%nat → Re.match_ re f = Some m →
  first_group m = Ok (Spec.group1 (Re.groups m)).
Proof.
  intros Hn Hm. apply match_groups_length in Hm. unfold first_group.
  destruct (Re.groups m) as [|[text|] g]; simpl in *; [lia|done..].
Qed.

Lemma candidates_filenames re names :
  (omap (fun f => m ← Re.match_ re f; Some (Spec.group1 (Re.groups m), f)) names).*2
  = filter (matches re) names.
Proof.
  induction names as [|f names IH]; [done|]. simpl. rewrite filter_cons.
  destruct (decide (matches re f)) as [[m Hm]|Hno].
  - rewrite Hm. simpl. f_equal. exact IH.
  - destruct (Re.match_ re f) as [m|] eqn:Hm; [|exact IH].
    destruct Hno. unfold matches. by rewrite Hm.
Qed.

Lemma system_models_loop_candidates fs re md mpat names :
  (0 < Re.ngroups re)%nat →
  system_models_loop fs re md mpat names
  = Spec.resolve_candidates fs md mpat
      (omap (fun f => m ← Re.match_ re f; Some (Spec.group1 (Re.groups m), f)) names).
Proof.
  intros Hn. induction names as [|f names IH]; [done|]. simpl.
  destruct (Re.match_ re f) as [m|] eqn:Hm; simpl; [|done].
  rewrite (first_group_group1 re f m Hn Hm). cbn [mbind result_bind].
  by rewrite IH.
Qed.

Lemma StronglySorted_filter_le (P : string → Prop) `{!∀ x, Decision (P x)} l :
  StronglySorted String.le l → StronglySorted String.le (filter P l).
Proof.
  induction 1 as [|x l Hl IH Hx]; [constructor|].
  rewrite filter_cons. destruct (decide (P x)); [|done].
  constructor; [done|]. apply Forall_forall. intros y Hy%list_elem_of_filter.
  rewrite Forall_forall in Hx. apply Hx, Hy.
Qed.

(** C5. For a pattern with a capturing group, the candidate loop of
    [write_config_static] works through exactly the pairs of the Pattern
    Matcher: the names of the listing that the pattern matches from their
    first character (an unread rest is allowed), in ascending order, each
    with its first group as identifier; the other names are passed over. *)
Theorem pattern_matcher_candidates fs re model_dir mpat listing :
  (0 < Re.ngroups re)%nat →
  system_models_loop fs re model_dir mpat (Py.sorted listing)
  = Spec.resolve_candidates fs model_dir mpat (Spec.match_candidates re listing)
  ∧ StronglySorted String.le (Spec.match_candidates re listing).*2
  ∧ (∀ f, f ∈ (Spec.match_candidates re listing).*2 ↔ f ∈ listing ∧ matches re f)
  ∧ (∀ id f, (id, f) ∈ Spec.match_candidates re listing →
       ∃ consumed rest g,
         Re.match_ re f = Some (rest, g) ∧ f = consumed +:+ rest ∧ id = Spec.group1 g).
Proof.
  intros Hn.
  assert ((Spec.match_candidates re listing).*2 = filter (matches re) (Py.sorted listing))
    as Hnames by apply candidates_filenames.
  split; [by apply system_models_loop_candidates|].
  split; [|split].
  - rewrite Hnames. apply StronglySorted_filter_le.
    apply StronglySorted_merge_sort; apply _.
  - intros f. rewrite Hnames, list_elem_of_filter. unfold Py.sorted.
    rewrite merge_sort_Permutation. tauto.
  - intros id f Hin. apply list_elem_of_omap in Hin as (f' & _ & Hf').
    destruct (Re.match_ re f') as [[rest g]|] eqn:Hm; [|done].
    simpl in Hf'. injection Hf' as <- <-.
    destruct (reach_suffix _ _ _ _ _ (match_reach _ _ _ _ Hm)) as [consumed Hc].
    by exists consumed, rest, g.
Qed.

(** ** Document Generator *)

Lemma chr_format_letter i : (i < 26)%nat → Py.chr_format (65 + i) = Ok (Spec.letter i).
Proof.
  intros Hi. do 26 (destruct i as [|i]; [reflexivity|]). lia.
Qed.

Lemma model_elems_from_entries refs : ∀ i,
  (i + length refs ≤ 26)%nat →
  model_elems_from i refs
  = Ok (imap (fun k name =>
          "<M ID=" +:+ Py.dq +:+ Spec.letter (i + k) +:+ Py.dq +:+ ">" +:+ name +:+ "</M>")
        refs).
Proof.
  induction refs as [|name refs IH]; intros i Hi; [done|]. simpl in Hi.
  cbn [model_elems_from]. rewrite chr_format_letter by lia. cbn [mbind result_bind].
  rewrite IH by lia. cbn [mbind result_bind]. rewrite imap_cons, Nat.add_0_r.
  do 2 f_equal. apply imap_ext. intros k x _. simpl. by rewrite Nat.add_succ_r.
Qed.

Lemma get_eval_stringA_task_text task_id system_dir model_dir peers refs :
  (length refs ≤ 26)%nat →
  __get_eval_stringA task_id system_dir peers model_dir refs
  = Ok (Spec.task_text system_dir model_dir task_id (peers, refs)).
Proof.
  intros Hlen. unfold __get_eval_stringA.
  by rewrite model_elems_from_entries by (simpl; lia).
Qed.

Lemma write_lookup cfg data fs content :
  files fs !! cfg = Some content →
  files (write cfg data fs) !! cfg = Some (content +:+ data).
Proof. intros H. simpl. by rewrite lookup_alter_eq, H. Qed.

Lemma write_evalsA_document cfg system_dir model_dir tasks : ∀ task_id fs content,
  Forall (fun task : list peer * list string => (length task.2 ≤ 26)%nat) tasks →
  files fs !! cfg = Some content →
  ∃ fs', write_evalsA cfg system_dir model_dir task_id tasks fs = (Ok (), fs')
    ∧ files fs' !! cfg
      = Some (content +:+ Spec.concat_text
                (imap (fun i task => Spec.task_text system_dir model_dir (task_id + i) task)
                   tasks)).
Proof.
  induction tasks as [|[peers refs] tasks IH]; intros task_id fs content Hall Hc.
  - exists fs. split; [done|]. simpl. by rewrite append_nil_r.
  - inversion Hall as [|? ? Hlen Hall']; subst. simpl in Hlen.
    cbn [write_evalsA]. rewrite get_eval_stringA_task_text by done.
    destruct (IH (S task_id) _ _ Hall'
                (write_lookup cfg
                   (Spec.task_text system_dir model_dir task_id (peers, refs))
                   fs content Hc))
      as (fs' & Hrun & Hfile).
    exists fs'. split; [done|]. rewrite Hfile, imap_cons, Nat.add_0_r. simpl.
    rewrite append_assoc. do 4 f_equal. apply imap_ext. intros k x _. simpl.
    by rewrite Nat.add_succ_r.
Qed.

(** C6. For every task list whose tasks have at most 26 references,
    [write_config_staticA] leaves in the configuration file the document of
    the Document Generator: the tasks in input order, numbered 1, 2, ...,
    each with one reference entry per reference filename in input order,
    lettered A, B, ... by position. *)
Theorem write_config_staticA_document fs system_dir spat model_dir mpat cfg labels tasks :
  ProduceSysModPair fs system_dir model_dir labels mpat spat = Ok tasks →
  Forall (fun task : list peer * list string => (length task.2 ≤ 26)%nat) tasks →
  ∃ fs',
    write_config_staticA system_dir spat model_dir mpat cfg labels fs = (Ok (), fs')
    ∧ files fs' !! cfg = Some (Spec.document system_dir model_dir tasks).
Proof.
  intros Hpair Hall. unfold write_config_staticA.
  pose proof Hpair as Hlist. unfold ProduceSysModPair in Hlist.
  apply bind_Ok in Hlist as (names & Hnames & _).
  rewrite Hnames. cbn [mbind result_bind]. rewrite Hpair.
  destruct (write_evalsA_document cfg system_dir model_dir tasks 1
              (write cfg rouge_header (open_w cfg fs)) rouge_header Hall)
    as (fs2 & Hrun & Hfile).
  { apply (write_lookup cfg rouge_header (open_w cfg fs) EmptyString).
    simpl. by rewrite lookup_insert_eq. }
  cbv zeta. rewrite Hrun. eexists. split; [done|].
  erewrite write_lookup by exact Hfile. unfold Spec.document.
  by rewrite append_assoc.
Qed.

(** ** Process Invoker: the command line *)

(** C7. The argument vector of [evaluate] is the interpreter, the path of
    the ROUGE script, the options, and last of all [-m] and the path of the
    configuration document.  The options are arguments supplied by the
    user, split on whitespace, or else the default set: data directory,
    confidence level 95, resampling count 1000, n-gram order 4 and the
    flags [-U] and [-a]. *)
Theorem evaluate_command_shape self PerlPath rouge_args :
  ∃ options,
    evaluate_command self PerlPath rouge_args
    = [PerlPath; _bin_path self] ++ options ++ ["-m"; _config_file self]
    ∧ ((truthy (args self) = true ∧ options = Py.split (default EmptyString (args self)))
       ∨ (truthy (args self) = false ∧ truthy rouge_args = true
          ∧ options = Py.split (default EmptyString rouge_args))
       ∨ (truthy (args self) = false ∧ truthy rouge_args = false
          ∧ options = ["-e"; _data_dir self; "-c"; "95"; "-U"; "-r"; "1000";
                       "-n"; "4"; "-a"])).
Proof.
  unfold evaluate_command, __get_options, __add_config_option.
  destruct (truthy (args self)) eqn:Hself; [|destruct (truthy rouge_args) eqn:Hcall].
  - eexists. split; [reflexivity|]. by left.
  - eexists. split; [reflexivity|]. right. by left.
  - eexists. split; [reflexivity|]. right. by right.
Qed.

(** ** Constructor arguments *)

Lemma compile_quot_mark : Re.compile quot_mark_pattern = Ok quot_mark_re.
Proof. by vm_compute. Qed.





Lemma length_append (s t : string) :
  String.length (s +:+ t) = (String.length s + String.length t)%nat.
Proof. induction s as [|a s IH]; [done|]. rewrite append_cons. simpl. by rewrite IH. Qed.

Lemma take_append (s t : string) : Py.take (String.length s) (s +:+ t) = s.
Proof.
  induction s as [|a s IH]; [by destruct t|]. rewrite append_cons. simpl. by rewrite IH.
Qed.

(** The greedy [.*] runs to the end of a newline-free text and gives back
    only the final quotation mark. *)
Lemma star_any_greedy k c x t : ∀ fuel,
  Py.no_newline t = true → (String.length t < fuel)%nat →
  k EmptyString c = None → k Py.dq c = Some x →
  Re.star_loop (Re.rmatch Re.Any) k fuel (t +:+ Py.dq) c = Some x.
Proof.
  induction t as [|a t IH]; intros fuel Hnl Hfuel Hend Hq;
    (destruct fuel as [|fuel]; [simpl in Hfuel; lia|]).
  - change (EmptyString +:+ Py.dq) with (String "034"%char EmptyString).
    change Py.dq with (String "034"%char EmptyString) in Hq.
    cbn [Re.star_loop Re.rmatch]. rewrite bool_decide_eq_false_2 by done.
    change (String.length EmptyString <? String.length (String "034"%char EmptyString))%nat
      with true.
    destruct fuel; cbn [Re.star_loop Re.rmatch]; by rewrite Hend.
  - simpl in Hnl. apply andb_true_iff in Hnl as [Ha Hnl]. apply negb_true_iff in Ha.
    rewrite append_cons. cbn [Re.star_loop Re.rmatch]. rewrite Ha.
    assert ((String.length (t +:+ Py.dq) <? String.length (String a (t +:+ Py.dq)))%nat
            = true) as -> by (apply Nat.ltb_lt; simpl; lia).
    rewrite IH; [done..| |done|done]. simpl in Hfuel. lia.
Qed.

(** Arguments enclosed in quotation marks lose exactly that pair. *)
Lemma clean_rouge_args_quoted b body :
  Py.no_newline (String b body) = true →
  __clean_rouge_args (Some (Py.dq +:+ String b body +:+ Py.dq))
  = Ok (Some (String b body)).
Proof.
  intros Hnl. simpl in Hnl. apply andb_true_iff in Hnl as [Hb Hnl].
  apply negb_true_iff in Hb.
  change (Py.dq +:+ String b body +:+ Py.dq)
    with (String "034"%char (String b (body +:+ Py.dq))).
  unfold __clean_rouge_args. rewrite compile_quot_mark.
  cbn [mbind result_bind]. unfold Re.match_.
  cbn [Re.ast quot_mark_re Re.rmatch Re.ngroups replicate].
  rewrite bool_decide_eq_true_2 by done. rewrite Hb.
  erewrite star_any_greedy; [| done | rewrite length_append; simpl; lia | done | ].
  2:{ change Py.dq with (String "034"%char EmptyString).
      cbn beta iota. rewrite bool_decide_eq_true_2 by done. reflexivity. }
  cbn [Re.groups snd]. rewrite list_lookup_insert_eq by (simpl; lia).
  do 2 f_equal. rewrite <- !append_cons, length_append.
  change (String.length (String "034"%char EmptyString)) with 1%nat.
  replace (String.length (String b body) + 1 - 1)%nat
    with (String.length (String b body)) by lia.
  apply take_append.
Qed.

(** Constructor arguments that do not open with a quotation mark are
    kept exactly as they are, quotation marks further on included. *)
Lemma clean_rouge_args_unquoted a s :
  a ≠ "034"%char → __clean_rouge_args (Some (String a s)) = Ok (Some (String a s)).
Proof.
  intros Ha. unfold __clean_rouge_args. rewrite compile_quot_mark.
  cbn [mbind result_bind]. unfold Re.match_. simpl.
  by rewrite bool_decide_eq_false_2.
Qed.


(** ** Variant matching *)

Lemma id_file_loop_filenames re label names : ∀ l,
  id_file_loop re label names = Ok l →
  peer_filename <$> l = filter (matches re) names.
Proof.
  induction names as [|f names IH]; intros l H; simpl in H.
  - by injection H as <-.
  - rewrite filter_cons. destruct (decide (matches re f)) as [[m Hm]|Hno].
    + rewrite Hm in H. apply bind_Ok in H as (id & _ & H).
      apply bind_Ok in H as (tl & Htl & [= <-]). simpl. f_equal. by apply IH.
    + destruct (Re.match_ re f) as [m|] eqn:Hm; [|by apply IH].
      destruct Hno. unfold matches. by rewrite Hm.
Qed.

Lemma anchored_match_end re f rest g :
  Re.anchored (Re.ast re) = true → Re.match_ re f = Some (rest, g) →
  rest = EmptyString ∨ rest = Py.nl.
Proof. intros Ha Hm%match_reach. by eapply reach_anchored. Qed.

(** C9, as amended.  In [ProduceSysModPair] a filename is taken for the
    label [L] exactly when it is in the listing and the pattern compiled
    from [P], a dot, [L] and the end anchor matches it from its first
    character.  When every alternative of that compiled pattern ends with
    the anchor, the match reaches the end of the filename or stops before
    one final newline. *)
Theorem variant_acceptance P listing labels all :
  all_id_loop P listing labels = Ok all →
  Forall2 (fun L (l : list peer) =>
    ∃ re,
      Re.compile (P +:+ "." +:+ L +:+ "$") = Ok re
      ∧ (∀ f, f ∈ peer_filename <$> l ↔ f ∈ listing ∧ matches re f)
      ∧ (Re.anchored (Re.ast re) = true →
         ∀ f, f ∈ peer_filename <$> l →
           ∃ rest g, Re.match_ re f = Some (rest, g)
                     ∧ (rest = EmptyString ∨ rest = Py.nl)))
    labels all.
Proof.
  revert all. induction labels as [|L labels IH]; intros all H; simpl in H.
  - injection H as <-. constructor.
  - apply bind_Ok in H as (re & Hre & H). apply bind_Ok in H as (l & Hl & H).
    apply bind_Ok in H as (tl & Htl & [= <-]).
    constructor; [|by apply IH].
    apply id_file_loop_filenames in Hl.
    assert (∀ f, f ∈ peer_filename <$> l ↔ f ∈ listing ∧ matches re f) as Hacc.
    { intros f. rewrite Hl, list_elem_of_filter. unfold Py.sorted.
      rewrite merge_sort_Permutation. tauto. }
    exists re. split; [done|]. split; [done|].
    intros Ha f [_ [[rest g] Hm]]%Hacc.
    exists rest, g. split; [done|]. by eapply anchored_match_end.
Qed.

(** C9, as stated, fails: the anchor binds only the last alternative, so
    with an alternation in the base pattern a file of another label is
    taken and its tail is left unread. *)
Lemma variant_match_not_to_end :
  ¬ (∀ P L f re,
       Re.compile (syspattern P L) = Ok re → matches re f →
       ∃ g, Re.match_ re f = Some (EmptyString, g)).
Proof.
  intros H.
  destruct (Re.compile (syspattern "sys-(\d+)|peer-(\d+)" "01")) as [re|] eqn:Hre;
    [|by vm_compute in Hre].
  destruct (H _ _ "sys-7.html.02" re Hre) as [g Hg].
  - vm_compute in Hre. injection Hre as <-. vm_compute. by eexists.
  - vm_compute in Hre. injection Hre as <-. by vm_compute in Hg.
Qed.

(** ** Output Parser *)

Lemma compile_report : Re.compile report_pattern = Ok report_re.
Proof. by vm_compute. Qed.

(** All six groups of the report pattern take part in every match. *)
Lemma report_groups line m :
  Re.match_ report_re line = Some m →
  ∃ sys_id metric measure v lo hi,
    Re.groups m = [Some sys_id; Some metric; Some measure; Some v; Some lo; Some hi].
Proof.
  intros Hm.
  pose proof (match_groups_length _ _ _ Hm) as Hlen.
  assert (∀ n, (n < 6)%nat → Re.set_at n (Re.groups m)) as Hset.
  { intros n Hn. eapply match_group_set; [done| |done].
    do 6 (destruct n as [|n]; [by vm_compute|]). lia. }
  destruct (Re.groups m) as [|g0 [|g1 [|g2 [|g3 [|g4 [|g5 [|g6 g]]]]]]];
    try (simpl in Hlen; vm_compute in Hlen; lia).
  destruct (Hset 0%nat) as [t0 [= ->]]; [lia|].
  destruct (Hset 1%nat) as [t1 [= ->]]; [lia|].
  destruct (Hset 2%nat) as [t2 [= ->]]; [lia|].
  destruct (Hset 3%nat) as [t3 [= ->]]; [lia|].
  destruct (Hset 4%nat) as [t4 [= ->]]; [lia|].
  destruct (Hset 5%nat) as [t5 [= ->]]; [lia|].
  by exists t0, t1, t2, t3, t4, t5.
Qed.

Lemma measure_name_label measure :
  measure ∈ ["Average_R"; "Average_P"; "Average_F"] →
  measure_name measure = Ok (Spec.measure_label measure).
Proof.
  intros H. repeat (apply elem_of_cons in H as [->|H]; [done|]).
  by apply elem_of_nil in H.
Qed.

Lemma float_value numeral : is_ok (float numeral) → float numeral = Ok (Spec.value_of numeral).
Proof. unfold Spec.value_of. by destruct (float numeral). Qed.

Lemma line_fields_match line m :
  Re.match_ report_re line = Some m →
  ∃ sys_id metric measure v lo hi,
    Re.groups m = [Some sys_id; Some metric; Some measure; Some v; Some lo; Some hi]
    ∧ Spec.line_fields line = Some [sys_id; metric; measure; v; lo; hi].
Proof.
  intros Hm.
  destruct (report_groups _ _ Hm) as (sys_id & metric & measure & v & lo & hi & Hg).
  exists sys_id, metric, measure, v, lo, hi. split; [done|].
  unfold Spec.line_fields. rewrite compile_report, Hm. cbn [mbind option_bind].
  by rewrite Hg.
Qed.

Lemma line_fields_none line :
  Re.match_ report_re line = None → Spec.line_fields line = None.
Proof. intros Hm. unfold Spec.line_fields. by rewrite compile_report, Hm. Qed.

Lemma lines_loop_entries lines : ∀ results,
  Forall Spec.well_formed_line lines →
  lines_loop report_re lines results
  = Ok (foldl (fun acc e => <[e.1 := e.2]> acc) results (lines ≫= Spec.line_entries)).
Proof.
  induction lines as [|line lines IH]; intros results Hwf; [done|].
  inversion Hwf as [|? ? Hline Hrest]; subst.
  rewrite bind_cons, foldl_app. cbn [lines_loop].
  unfold Spec.well_formed_line, Spec.line_entries in *.
  destruct (Re.match_ report_re line) as [m|] eqn:Hm.
  - destruct (line_fields_match _ _ Hm)
      as (sys_id & metric & measure & v & lo & hi & Hg & Hf).
    rewrite Hf in *. destruct Hline as (Hmeasure & Hv & Hlo & Hhi).
    rewrite Hg. cbn [add_line].
    rewrite (measure_name_label _ Hmeasure). cbn [mbind result_bind].
    rewrite (float_value _ Hv), (float_value _ Hlo), (float_value _ Hhi).
    cbn [mbind result_bind]. by rewrite IH.
  - rewrite (line_fields_none _ Hm). simpl. by rewrite IH.
Qed.

Lemma line_entries_none lines :
  Forall (fun line => Re.match_ report_re line = None) lines →
  lines ≫= Spec.line_entries = [].
Proof.
  induction 1 as [|line lines Hline _ IH]; [done|].
  rewrite bind_cons, IH. unfold Spec.line_entries.
  by rewrite (line_fields_none _ Hline).
Qed.

(** X16. What the parser does on the reports the scorer prints.  When
    every line that the code's pattern matches names one of the measures
    [Average_R], [Average_P], [Average_F] and carries three numerals that
    [float] accepts, [output_to_dict] returns the mapping in which each
    matching line has assigned, in order, its three entries
    [{metric}_{measure}], [..._cb] and [..._ce]; lines the pattern does not
    match contribute nothing, and an output without a matching line gives
    the empty mapping.  The sample line gives the three values of the
    specification. *)
Theorem output_to_dict_entries output :
  Forall Spec.well_formed_line (Py.split_nl output) →
  output_to_dict output = Ok (Spec.collect (Py.split_nl output ≫= Spec.line_entries))
  ∧ (∀ line, Re.match_ report_re line = None → Spec.line_entries line = [])
  ∧ (∀ line, is_Some (Re.match_ report_re line) →
       ∃ sys_id metric measure v lo hi,
         Spec.line_fields line = Some [sys_id; metric; measure; v; lo; hi]
         ∧ Spec.line_entries line
           = [(Spec.metric_key metric measure, Spec.value_of v);
              (Spec.metric_key metric measure +:+ "_cb", Spec.value_of lo);
              (Spec.metric_key metric measure +:+ "_ce", Spec.value_of hi)])
  ∧ (Forall (fun line => Re.match_ report_re line = None) (Py.split_nl output) →
     output_to_dict output = Ok ∅)
  ∧ output_to_dict Sample.report_line
    = Ok (<["rouge_1_f_score_ce" := 0.97000%Q]>
            (<["rouge_1_f_score_cb" := 0.94000%Q]>
               (<["rouge_1_f_score" := 0.95652%Q]> ∅))).
Proof.
  intros Hwf.
  assert (output_to_dict output
          = Ok (Spec.collect (Py.split_nl output ≫= Spec.line_entries))) as Hdict.
  { unfold output_to_dict. rewrite compile_report. cbn [mbind result_bind].
    by apply lines_loop_entries. }
  assert (∀ line, Re.match_ report_re line = None → Spec.line_entries line = []) as Hnone.
  { intros line Hm. unfold Spec.line_entries. by rewrite (line_fields_none _ Hm). }
  split; [done|]. split; [done|]. split; [|split].
  - intros line [m Hm].
    destruct (line_fields_match _ _ Hm)
      as (sys_id & metric & measure & v & lo & hi & Hg & Hf).
    exists sys_id, metric, measure, v, lo, hi. split; [done|].
    unfold Spec.line_entries. by rewrite Hf.
  - intros Hno. rewrite Hdict. by rewrite (line_entries_none _ Hno).
  - by vm_compute.
Qed.

(** The parser does not return a mapping for every output: a line that
    the pattern matches but whose measure letter is none of R, P, F makes
    it raise. *)
Lemma output_to_dict_unknown_measure :
  ¬ (∀ output, ∃ results, output_to_dict output = Ok results).
Proof.
  intros H.
  destruct (H "1 ROUGE-1 Average_X: 0.50000 (95%-conf.int. 0.40000 - 0.60000)")
    as [results Hr].
  by vm_compute in Hr.
Qed.

(** C8. Evaluation at lines that are not of the fixed report format and so
    ought to be ignored.  The format names the measures [Average_R],
    [Average_P] and [Average_F] and writes its numbers with a point; the
    pattern of [output_to_dict] takes any word character after [Average_]
    and any character between the digits.  A line with the measure
    [Average_X] is therefore matched and the lookup in the three-key
    dictionary raises [KeyError]; a line whose number has a comma for the
    point is matched and [float] raises [ValueError].  A line the pattern
    does not match is passed over, as the claim says, and so is the rest of
    a report around it. *)
Theorem output_to_dict_raises_on_malformed_line :
  output_to_dict "1 ROUGE-1 Average_X: 0.50000 (95%-conf.int. 0.40000 - 0.60000)"
  = Raise (KeyError "Average_X")
  ∧ output_to_dict "1 ROUGE-1 Average_F: 0,95652 (95%-conf.int. 0.94000 - 0.97000)"
    = Raise ValueError
  ∧ output_to_dict
      ("1 ROUGE-1 Average_F: 0.95652 (95%-conf.int. 0.94000 - 0.97000)" +:+ Py.nl
       +:+ "1 ROUGE-1 Average_X: 0.50000 (95%-conf.int. 0.40000 - 0.60000)")
    = Raise (KeyError "Average_X")
  ∧ output_to_dict
      ("1 ROUGE-1 Average_F: 0.95652 (95%-conf.int. 0.94000 - 0.97000)" +:+ Py.nl
       +:+ "1 ROUGE-1 Average: 0.50000 (95%-conf.int. 0.40000 - 0.60000)")
    = Ok (<["rouge_1_f_score_ce" := 0.97000%Q]>
            (<["rouge_1_f_score_cb" := 0.94000%Q]>
               (<["rouge_1_f_score" := 0.95652%Q]> ∅))).
Proof. repeat split; by vm_compute. Qed.

(** ** The theorems at the sample inputs *)

Lemma ProduceSysModPair_zips_witness :
  ∃ names first others,
    listdir Sample.fs "peers" = Ok names
    ∧ all_id_loop Sample.peers_pattern names ["01"; "02"] = Ok (first :: others)
    ∧ length Sample.peers_tasks = length first
    ∧ ∀ i p, first !! i = Some p →
        ∃ peers models,
          Sample.peers_tasks !! i = Some (peers, models)
          ∧ __get_model_filenames_for_id Sample.fs (peer_id p) "p14models"
              Sample.p14_model_pattern = Ok models
          ∧ Forall2 (fun (variant : list peer) q => variant !! i = Some q)
              (first :: others) peers.
Proof.
  apply (proj1 (ProduceSysModPair_zips Sample.fs "peers" "p14models" "01" ["02"]
                  Sample.p14_model_pattern Sample.peers_pattern Sample.peers_tasks)).
  vm_compute. reflexivity.
Defined.

(** The pattern compiled for a label of the sample ends with the anchor on
    every path, so the files taken for that label are matched to their end. *)
Lemma sample_variant_pattern_anchored :
  ∃ re, Re.compile (syspattern Sample.peers_pattern "01") = Ok re
        ∧ Re.anchored (Re.ast re) = true
        ∧ Re.match_ re "P14-1.xhtml.html.01" = Some (EmptyString, [Some "1"])
        ∧ Re.match_ re "P14-1.xhtml.html.01.bak" = None.
Proof. eexists. split; [by vm_compute|]. by vm_compute. Qed.

Lemma missing_references_abort_witness :
  __get_model_filenames_for_id Sample.fs (IdStr "003") "models" Sample.model_pattern
  = Raise (Exception
      "Could not find any model summaries for the system summary with ID 003. Specified model filename pattern was: ref-#ID#-[A-Z]\.html")
  ∧ write_config_static "unreferenced" Sample.system_pattern "models"
      Sample.model_pattern Sample.config_path "None" Sample.fs
    = (Raise (Exception
         "Could not find any model summaries for the system summary with ID 003. Specified model filename pattern was: ref-#ID#-[A-Z]\.html"),
       Sample.fs).
Proof.
  edestruct (missing_references_abort Sample.fs "003" "models" Sample.model_pattern)
    as (Hget & Hstatic & _).
  - vm_compute. reflexivity.
  - vm_compute. reflexivity.
  - repeat constructor; intros [m Hm]; vm_compute in Hm; discriminate Hm.
  - split; [exact Hget|].
    edestruct (Hstatic "unreferenced" Sample.system_pattern Sample.config_path "None"
                 Sample.system_re ["sys-003.html"; "sys-001.html"] ["sys-001.html"]
                 "sys-003.html" (EmptyString, [Some "003"]) [])
      as (e' & Hrun & He).
    + vm_compute. reflexivity.
    + vm_compute. reflexivity.
    + vm_compute. reflexivity.
    + vm_compute. reflexivity.
    + vm_compute. reflexivity.
    + rewrite Hrun. rewrite He; [reflexivity|]. vm_compute. exact I.
Defined.

Lemma pattern_matcher_candidates_witness :
  (0 < Re.ngroups Sample.system_re)%nat
  ∧ Spec.match_candidates Sample.system_re ["sys-002.html"; "notes.txt"; "sys-001.html.bak"]
    = [(IdStr "001", "sys-001.html.bak"); (IdStr "002", "sys-002.html")]
  ∧ system_models_loop Sample.fs Sample.system_re "models" Sample.model_pattern
      (Py.sorted ["sys-002.html"; "notes.txt"; "sys-001.html.bak"])
    = Spec.resolve_candidates Sample.fs "models" Sample.model_pattern
        (Spec.match_candidates Sample.system_re
           ["sys-002.html"; "notes.txt"; "sys-001.html.bak"]).
Proof.
  split; [vm_compute; lia|]. split; [vm_compute; reflexivity|].
  apply (pattern_matcher_candidates Sample.fs Sample.system_re "models"
           Sample.model_pattern ["sys-002.html"; "notes.txt"; "sys-001.html.bak"]).
  vm_compute. lia.
Defined.

Lemma write_config_staticA_document_witness :
  ∃ fs',
    write_config_staticA "peers" Sample.peers_pattern "p14models" Sample.p14_model_pattern
      Sample.config_path ["01"; "02"] Sample.fs = (Ok (), fs')
    ∧ files fs' !! Sample.config_path
      = Some (Spec.document "peers" "p14models" Sample.peers_tasks).
Proof.
  apply (write_config_staticA_document Sample.fs "peers" Sample.peers_pattern "p14models"
           Sample.p14_model_pattern Sample.config_path ["01"; "02"] Sample.peers_tasks).
  - vm_compute. reflexivity.
  - repeat constructor.
Defined.

Lemma output_to_dict_entries_witness :
  output_to_dict ("ROUGE report" +:+ Py.nl +:+ Sample.report_line)
  = Ok (Spec.collect
          (Py.split_nl ("ROUGE report" +:+ Py.nl +:+ Sample.report_line)
             ≫= Spec.line_entries)).
Proof.
  apply (output_to_dict_entries ("ROUGE report" +:+ Py.nl +:+ Sample.report_line)).
  repeat constructor; vm_compute; try exact I.
Defined.

Lemma variant_acceptance_witness :
  Forall2 (fun L (l : list peer) =>
    ∃ re,
      Re.compile (Sample.peers_pattern +:+ "." +:+ L +:+ "$") = Ok re
      ∧ (∀ f, f ∈ peer_filename <$> l ↔ f ∈ Sample.peers_listing ∧ matches re f)
      ∧ (Re.anchored (Re.ast re) = true →
         ∀ f, f ∈ peer_filename <$> l →
           ∃ rest g, Re.match_ re f = Some (rest, g)
                     ∧ (rest = EmptyString ∨ rest = Py.nl)))
    ["01"; "02"] Sample.peers_lists.
Proof.
  apply (variant_acceptance Sample.peers_pattern Sample.peers_listing ["01"; "02"]
           Sample.peers_lists).
  vm_compute. reflexivity.
Defined.

(** * Further properties of the program *)

(** ** The single-system document *)

Lemma get_eval_string_task_text task_id system_id system_dir f model_dir refs :
  (length refs ≤ 26)%nat →
  __get_eval_string task_id system_id system_dir f model_dir refs
  = Ok (More.static_task_text system_id system_dir model_dir task_id (f, refs)).
Proof.
  intros Hlen. unfold __get_eval_string.
  by rewrite model_elems_from_entries by (simpl; lia).
Qed.

Lemma write_evals_document cfg system_id system_dir model_dir tuples :
  ∀ task_id fs content,
  Forall (fun t : string * list string => (length t.2 ≤ 26)%nat) tuples →
  files fs !! cfg = Some content →
  ∃ fs', write_evals cfg system_id system_dir model_dir task_id tuples fs = (Ok (), fs')
    ∧ files fs' !! cfg
      = Some (content +:+ Spec.concat_text
                (imap (fun i t =>
                         More.static_task_text system_id system_dir model_dir (task_id + i) t)
                   tuples)).
Proof.
  induction tuples as [|[f refs] tuples IH]; intros task_id fs content Hall Hc.
  - exists fs. split; [done|]. simpl. by rewrite append_nil_r.
  - inversion Hall as [|? ? Hlen Hall']; subst. simpl in Hlen.
    cbn [write_evals]. rewrite get_eval_string_task_text by done.
    destruct (IH (S task_id) _ _ Hall'
                (write_lookup cfg
                   (More.static_task_text system_id system_dir model_dir task_id (f, refs))
                   fs content Hc))
      as (fs' & Hrun & Hfile).
    exists fs'. split; [done|]. rewrite Hfile, imap_cons, Nat.add_0_r. simpl.
    rewrite append_assoc. do 4 f_equal. apply imap_ext. intros k x _. simpl.
    by rewrite Nat.add_succ_r.
Qed.

Lemma system_models_loop_filenames fs sre md mpat names : ∀ tuples,
  system_models_loop fs sre md mpat names = Ok tuples →
  tuples.*1 = filter (matches sre) names.
Proof.
  induction names as [|f names IH]; intros tuples H; simpl in H.
  - by injection H as <-.
  - rewrite filter_cons. destruct (decide (matches sre f)) as [[m Hm]|Hno].
    + rewrite Hm in H. apply bind_Ok in H as (id & _ & H).
      apply bind_Ok in H as (refs & _ & H).
      apply bind_Ok in H as (tl & Htl & [= <-]). simpl. f_equal. by apply IH.
    + destruct (Re.match_ sre f) as [m|] eqn:Hm; [|by apply IH].
      destruct Hno. unfold matches. by rewrite Hm.
Qed.

(** X1. When the candidate loop of [write_config_static] yields a
    non-empty list of tasks with at most 26 references each, the call
    succeeds and the configuration file holds the header, one task per
    matching system file in ascending filename order, numbered from 1, with
    a single peer entry carrying the system ID and the references in
    ascending order lettered from A, and the footer. *)
Theorem write_config_static_document fs system_dir spat model_dir mpat cfg system_id
    sre listing tuples :
  listdir fs system_dir = Ok listing →
  Re.compile spat = Ok sre →
  system_models_loop fs sre model_dir mpat (Py.sorted listing) = Ok tuples →
  tuples ≠ [] →
  Forall (fun t : string * list string => (length t.2 ≤ 26)%nat) tuples →
  ∃ fs',
    write_config_static system_dir spat model_dir mpat cfg system_id fs = (Ok (), fs')
    ∧ files fs' !! cfg
      = Some (More.static_document system_id system_dir model_dir tuples)
    ∧ tuples.*1 = filter (matches sre) (Py.sorted listing)
    ∧ Forall (fun t : string * list string => StronglySorted String.le t.2) tuples.
Proof.
  intros Hlist Hsre Hloop Hne Hall. unfold write_config_static.
  rewrite Hlist. cbn [mbind result_bind]. rewrite Hsre. cbn [mbind result_bind].
  rewrite Hloop. cbn [mbind result_bind].
  destruct tuples as [|t tuples]; [done|].
  destruct (write_evals_document cfg system_id system_dir model_dir (t :: tuples) 1
              (write cfg rouge_header (open_w cfg fs)) rouge_header Hall)
    as (fs2 & Hrun & Hfile).
  { apply (write_lookup cfg rouge_header (open_w cfg fs) EmptyString).
    simpl. by rewrite lookup_insert_eq. }
  cbv zeta. rewrite Hrun. eexists. split; [done|]. split; [|split].
  - erewrite write_lookup by exact Hfile. unfold More.static_document.
    by rewrite append_assoc.
  - by eapply system_models_loop_filenames.
  - by eapply system_models_loop_references_sorted.
Qed.

(** ** What the writers leave alone *)

Lemma write_other cfg data fs p : p ≠ cfg → files (write cfg data fs) !! p = files fs !! p.
Proof. intros Hp. simpl. by rewrite lookup_alter_ne. Qed.

Lemma write_evals_frame cfg system_id system_dir model_dir tuples : ∀ task_id fs p,
  p ≠ cfg →
  files (write_evals cfg system_id system_dir model_dir task_id tuples fs).2 !! p
  = files fs !! p.
Proof.
  induction tuples as [|[f refs] tuples IH]; intros task_id fs p Hp; [done|].
  cbn [write_evals].
  destruct (__get_eval_string task_id system_id system_dir f model_dir refs); [|done].
  by rewrite IH, write_other.
Qed.

Lemma write_evalsA_frame cfg system_dir model_dir sys_mod : ∀ task_id fs p,
  p ≠ cfg →
  files (write_evalsA cfg system_dir model_dir task_id sys_mod fs).2 !! p
  = files fs !! p.
Proof.
  induction sys_mod as [|[peers refs] sys_mod IH]; intros task_id fs p Hp; [done|].
  cbn [write_evalsA].
  destruct (__get_eval_stringA task_id system_dir peers model_dir refs); [|done].
  by rewrite IH, write_other.
Qed.

(** X2. Whatever their arguments and whether they succeed or raise, both
    configuration writers leave the contents of every file other than the
    configuration file as they found them. *)
Theorem writers_touch_only_config_file system_dir spat model_dir mpat cfg fs p :
  p ≠ cfg →
  (∀ system_id,
     files (write_config_static system_dir spat model_dir mpat cfg system_id fs).2 !! p
     = files fs !! p)
  ∧ (∀ labels,
       files (write_config_staticA system_dir spat model_dir mpat cfg labels fs).2 !! p
       = files fs !! p).
Proof.
  intros Hp. split.
  - intros system_id. unfold write_config_static.
    destruct (_ ≫= _) as [tuples|e]; [|done].
    pose proof (write_evals_frame cfg system_id system_dir model_dir tuples 1
                  (write cfg rouge_header (open_w cfg fs)) p Hp) as Hf.
    cbv zeta.
    destruct (write_evals cfg system_id system_dir model_dir 1 tuples _) as [[[]|e] fs2];
      simpl in *.
    + rewrite lookup_alter_ne by done. rewrite Hf.
      rewrite lookup_alter_ne by done. by rewrite lookup_insert_ne.
    + rewrite Hf. rewrite lookup_alter_ne by done. by rewrite lookup_insert_ne.
  - intros labels. unfold write_config_staticA.
    destruct (_ ≫= _) as [sys_mod|e]; [|done].
    pose proof (write_evalsA_frame cfg system_dir model_dir sys_mod 1
                  (write cfg rouge_header (open_w cfg fs)) p Hp) as Hf.
    cbv zeta.
    destruct (write_evalsA cfg system_dir model_dir 1 sys_mod _) as [[[]|e] fs2];
      simpl in *.
    + rewrite lookup_alter_ne by done. rewrite Hf.
      rewrite lookup_alter_ne by done. by rewrite lookup_insert_ne.
    + rewrite Hf. rewrite lookup_alter_ne by done. by rewrite lookup_insert_ne.
Qed.

(** ** Independence of the listing order on the single-system path *)

Lemma sorted_Permutation l l' : l ≡ₚ l' → Py.sorted l = Py.sorted l'.
Proof.
  intros Hp. unfold Py.sorted.
  apply (StronglySorted_unique String.le).
  - apply StronglySorted_merge_sort; apply _.
  - apply StronglySorted_merge_sort; apply _.
  - by rewrite !merge_sort_Permutation.
Qed.

Lemma listdir_same fs fs' d :
  More.same_listings fs fs' → More.same_names (listdir fs d) (listdir fs' d).
Proof.
  intros [_ H]. specialize (H d). unfold listdir, More.same_names.
  by destruct (dirs fs !! d), (dirs fs' !! d).
Qed.

Lemma get_model_filenames_same fs fs' id md mpat :
  More.same_listings fs fs' →
  More.same_names (__get_model_filenames_for_id fs id md mpat)
                  (__get_model_filenames_for_id fs' id md mpat).
Proof.
  intros Hsame. unfold __get_model_filenames_for_id.
  destruct id as [text|]; [|done]. cbn [mbind result_bind].
  destruct (Re.compile _) as [re|]; [|done]. cbn [mbind result_bind].
  pose proof (listdir_same fs fs' md Hsame) as Hl. unfold More.same_names in Hl.
  destruct (listdir fs md) as [l|], (listdir fs' md) as [l'|]; try done.
  cbn [mbind result_bind].
  assert (filter (matches re) l ≡ₚ filter (matches re) l') as Hf by by rewrite Hl.
  destruct (filter (matches re) l) as [|x k] eqn:Hk.
  - apply Permutation_nil in Hf. by rewrite Hf.
  - destruct (filter (matches re) l') as [|x' k'] eqn:Hk'; [|done].
    symmetry in Hf. by apply Permutation_nil in Hf.
Qed.

Lemma system_models_loop_same fs fs' sre md mpat names :
  More.same_listings fs fs' →
  system_models_loop fs sre md mpat names = system_models_loop fs' sre md mpat names.
Proof.
  intros Hsame. induction names as [|f names IH]; [done|]. simpl.
  destruct (Re.match_ sre f) as [m|]; [|done].
  destruct (first_group m) as [id|]; [|done]. cbn [mbind result_bind].
  pose proof (get_model_filenames_same fs fs' id md mpat Hsame) as Hg.
  unfold More.same_names in Hg.
  destruct (__get_model_filenames_for_id fs id md mpat) as [refs|],
           (__get_model_filenames_for_id fs' id md mpat) as [refs'|]; try done.
  - cbn [mbind result_bind]. by rewrite IH, (sorted_Permutation _ _ Hg).
  - by subst.
Qed.

Lemma write_evals_same_files cfg system_id system_dir model_dir tuples : ∀ task_id fs fs',
  files fs = files fs' →
  (write_evals cfg system_id system_dir model_dir task_id tuples fs).1
  = (write_evals cfg system_id system_dir model_dir task_id tuples fs').1
  ∧ files (write_evals cfg system_id system_dir model_dir task_id tuples fs).2
    = files (write_evals cfg system_id system_dir model_dir task_id tuples fs').2.
Proof.
  induction tuples as [|[f refs] tuples IH]; intros task_id fs fs' Hfiles; [done|].
  cbn [write_evals].
  destruct (__get_eval_string task_id system_id system_dir f model_dir refs); [|done].
  apply IH. simpl. by rewrite Hfiles.
Qed.

(** X3. [write_config_static] does not depend on the order in which the
    directories are listed: on two file systems with the same files and the
    same directory entries in any order it returns the same result (the
    same success or the same exception) and leaves the same file contents. *)
Theorem write_config_static_listing_order system_dir spat model_dir mpat cfg system_id
    fs fs' :
  More.same_listings fs fs' →
  (write_config_static system_dir spat model_dir mpat cfg system_id fs).1
  = (write_config_static system_dir spat model_dir mpat cfg system_id fs').1
  ∧ files (write_config_static system_dir spat model_dir mpat cfg system_id fs).2
    = files (write_config_static system_dir spat model_dir mpat cfg system_id fs').2.
Proof.
  intros Hsame. pose proof Hsame as [Hfiles _]. unfold write_config_static.
  pose proof (listdir_same fs fs' system_dir Hsame) as Hl. unfold More.same_names in Hl.
  destruct (listdir fs system_dir) as [l|], (listdir fs' system_dir) as [l'|]; try done.
  2:{ cbn [mbind result_bind]. by subst. }
  cbn [mbind result_bind].
  destruct (Re.compile spat) as [sre|]; [|done]. cbn [mbind result_bind].
  rewrite <- (sorted_Permutation _ _ Hl).
  rewrite <- (system_models_loop_same fs fs' sre model_dir mpat _ Hsame).
  destruct (system_models_loop fs sre model_dir mpat (Py.sorted l)) as [[|t tuples]|e];
    [done| |done].
  cbn [mbind result_bind]. cbv zeta.
  destruct (write_evals_same_files cfg system_id system_dir model_dir (t :: tuples) 1
              (write cfg rouge_header (open_w cfg fs))
              (write cfg rouge_header (open_w cfg fs'))) as [H1 H2].
  { simpl. by rewrite Hfiles. }
  destruct (write_evals cfg system_id system_dir model_dir 1 (t :: tuples)
              (write cfg rouge_header (open_w cfg fs))) as [[[]|e] fs2],
           (write_evals cfg system_id system_dir model_dir 1 (t :: tuples)
              (write cfg rouge_header (open_w cfg fs'))) as [[[]|e'] fs2'];
    simpl in *; try done.
  by rewrite H2.
Qed.

(** ** When the several-systems resolver succeeds *)

Lemma system_id_set_at_ok i (all : list (list peer)) :
  Forall (fun variant => (i < length variant)%nat) all → is_ok (system_id_set_at i all).
Proof.
  induction 1 as [|variant all Hv _ IH]; [done|]. simpl.
  destruct (lookup_lt_is_Some_2 variant i Hv) as [p ->].
  by destruct (system_id_set_at i all).
Qed.

Lemma system_id_set_at_short i (all : list (list peer)) :
  Exists (fun variant => (length variant ≤ i)%nat) all →
  system_id_set_at i all = Raise IndexError.
Proof.
  induction 1 as [variant all Hv|variant all _ IH]; simpl.
  - by rewrite lookup_ge_None_2.
  - destruct (variant !! i); [|done]. by rewrite IH.
Qed.

Lemma pair_loop_ok fs md mpat all first : ∀ i,
  Forall (fun p => is_ok (__get_model_filenames_for_id fs (peer_id p) md mpat)) first →
  Forall (fun variant : list peer => (i + length first ≤ length variant)%nat) all →
  is_ok (pair_loop fs md mpat all i first).
Proof.
  induction first as [|p first IH]; intros i Hres Hlen; [done|].
  inversion Hres as [|? ? Hp Hres']; subst. simpl.
  destruct (__get_model_filenames_for_id fs (peer_id p) md mpat); [|done].
  cbn [mbind result_bind].
  assert (is_ok (system_id_set_at i all)) as Hset.
  { apply system_id_set_at_ok. eapply Forall_impl; [exact Hlen|]. simpl. intros; lia. }
  destruct (system_id_set_at i all); [|done]. cbn [mbind result_bind].
  assert (is_ok (pair_loop fs md mpat all (S i) first)) as Hrest.
  { apply IH; [done|]. eapply Forall_impl; [exact Hlen|]. simpl. intros; lia. }
  by destruct (pair_loop fs md mpat all (S i) first).
Qed.

Lemma pair_loop_short fs md mpat all first : ∀ i,
  Forall (fun p => is_ok (__get_model_filenames_for_id fs (peer_id p) md mpat)) first →
  Forall (fun variant : list peer => (i ≤ length variant)%nat) all →
  Exists (fun variant : list peer => (length variant < i + length first)%nat) all →
  pair_loop fs md mpat all i first = Raise IndexError.
Proof.
  induction first as [|p first IH]; intros i Hres Hge Hshort.
  - apply Exists_exists in Hshort as (v & Hv & Hlt). rewrite Forall_forall in Hge.
    specialize (Hge v Hv). simpl in Hlt. lia.
  - inversion Hres as [|? ? Hp Hres']; subst. simpl.
    destruct (__get_model_filenames_for_id fs (peer_id p) md mpat); [|done].
    cbn [mbind result_bind].
    destruct (decide (Forall (fun variant : list peer => (i < length variant)%nat) all))
      as [Hall|Hnot].
    + pose proof (system_id_set_at_ok i all Hall) as Hset.
      destruct (system_id_set_at i all); [|done]. cbn [mbind result_bind].
      rewrite IH; [done|done| |].
      * eapply Forall_impl; [exact Hall|]. simpl. intros; lia.
      * eapply Exists_impl; [exact Hshort|]. simpl. intros; lia.
    + apply not_Forall_Exists in Hnot; [|apply _].
      rewrite system_id_set_at_short; [done|].
      eapply Exists_impl; [exact Hnot|]. simpl. intros; lia.
Qed.

(** X4. Once the directory is listed and the candidate lists of the labels
    are built, [ProduceSysModPair] succeeds exactly when every later label
    has at least as many candidates as the first one and the identifier of
    every candidate of the first label has model files. *)
Theorem ProduceSysModPair_succeeds_iff fs system_dir model_dir labels mpat spat
    names first others :
  listdir fs system_dir = Ok names →
  all_id_loop spat names labels = Ok (first :: others) →
  is_ok (ProduceSysModPair fs system_dir model_dir labels mpat spat)
  ↔ Forall (fun variant : list peer => (length first ≤ length variant)%nat) others
    ∧ Forall (fun p => is_ok (__get_model_filenames_for_id fs (peer_id p) model_dir mpat))
        first.
Proof.
  intros Hnames Hall. unfold ProduceSysModPair.
  rewrite Hnames. cbn [mbind result_bind]. rewrite Hall. cbn [mbind result_bind]. split.
  - intros Hok.
    destruct (pair_loop fs model_dir mpat (first :: others) 0 first) as [tasks|] eqn:Hp;
      [|done].
    apply pair_loop_spec in Hp as [_ Hp]. split.
    + apply Forall_forall. intros variant Hv.
      destruct (decide (length first = 0%nat)) as [Hz|Hnz]; [lia|].
      assert (is_Some (first !! (length first - 1)%nat)) as [p Hlast].
      { apply lookup_lt_is_Some_2. lia. }
      destruct (Hp _ _ Hlast) as (task & _ & _ & Hpeers). simpl in Hpeers.
      inversion Hpeers as [|? ? ? ? _ Hrest]; subst.
      apply list_elem_of_lookup in Hv as [j Hj].
      destruct (Forall2_lookup_l _ _ _ _ _ Hrest Hj) as (q & _ & Hq).
      apply lookup_lt_Some in Hq. lia.
    + apply Forall_forall. intros p Hin. apply list_elem_of_lookup in Hin as [k Hk].
      destruct (Hp _ _ Hk) as (task & _ & Hget & _). by rewrite Hget.
  - intros [Hlen Hres]. apply pair_loop_ok; [done|].
    constructor; [simpl; lia|]. eapply Forall_impl; [exact Hlen|]. simpl. intros; lia.
Qed.

(** X5. When every candidate of the first label has model files but some
    later label has fewer candidates than the first, [ProduceSysModPair]
    raises [IndexError], and [write_config_staticA] passes it on without
    touching the file system. *)
Theorem ProduceSysModPair_short_label fs system_dir model_dir labels mpat spat cfg
    names first others :
  listdir fs system_dir = Ok names →
  all_id_loop spat names labels = Ok (first :: others) →
  Forall (fun p => is_ok (__get_model_filenames_for_id fs (peer_id p) model_dir mpat))
    first →
  Exists (fun variant : list peer => (length variant < length first)%nat) others →
  ProduceSysModPair fs system_dir model_dir labels mpat spat = Raise IndexError
  ∧ write_config_staticA system_dir spat model_dir mpat cfg labels fs
    = (Raise IndexError, fs).
Proof.
  intros Hnames Hall Hres Hshort.
  assert (ProduceSysModPair fs system_dir model_dir labels mpat spat = Raise IndexError)
    as Hraise.
  { unfold ProduceSysModPair.
    rewrite Hnames. cbn [mbind result_bind]. rewrite Hall. cbn [mbind result_bind].
    apply pair_loop_short; [done| |].
    - apply Forall_forall. intros; lia.
    - by apply Exists_cons_tl. }
  split; [done|]. unfold write_config_staticA.
  rewrite Hnames. cbn [mbind result_bind]. by rewrite Hraise.
Qed.

(** ** The candidate lists of the labels *)

Lemma id_file_loop_entries re label names : ∀ l,
  id_file_loop re label names = Ok l →
  Forall (fun p => peer_system_id p = label
                   ∧ ∃ m, Re.match_ re (peer_filename p) = Some m
                          ∧ first_group m = Ok (peer_id p)) l.
Proof.
  induction names as [|f names IH]; intros l H; simpl in H.
  - injection H as <-. constructor.
  - destruct (Re.match_ re f) as [m|] eqn:Hm; [|by apply IH].
    apply bind_Ok in H as (id & Hid & H). apply bind_Ok in H as (tl & Htl & [= <-]).
    constructor; [|by apply IH]. simpl. split; [done|]. by exists m.
Qed.

(** X6. The candidate lists that [ProduceSysModPair] builds, one per label
    and in the order of the labels, are in ascending filename order, and
    every entry carries its label and, as identifier, the first group of
    the match of its filename against the pattern compiled for the label. *)
Theorem all_id_loop_entries P listing labels all :
  all_id_loop P listing labels = Ok all →
  Forall2 (fun L (l : list peer) =>
    StronglySorted String.le (peer_filename <$> l)
    ∧ Forall (fun p =>
        peer_system_id p = L
        ∧ ∃ re m, Re.compile (syspattern P L) = Ok re
                  ∧ Re.match_ re (peer_filename p) = Some m
                  ∧ first_group m = Ok (peer_id p)) l)
    labels all.
Proof.
  revert all. induction labels as [|L labels IH]; intros all H; simpl in H.
  - injection H as <-. constructor.
  - apply bind_Ok in H as (re & Hre & H). apply bind_Ok in H as (l & Hl & H).
    apply bind_Ok in H as (tl & Htl & [= <-]).
    constructor; [|by apply IH]. split.
    + rewrite (id_file_loop_filenames _ _ _ _ Hl). apply StronglySorted_filter_le.
      apply StronglySorted_merge_sort; apply _.
    + apply id_file_loop_entries in Hl. eapply Forall_impl; [exact Hl|].
      intros p [Hlabel (m & Hm & Hid)]. split; [done|]. by exists re, m.
Qed.

(** ** Reference resolution *)

(** [__get_model_filenames_for_id] succeeds exactly when the model
    pattern with every [#ID#] replaced by the identifier compiles, the
    model directory can be listed and at least one of its names is matched
    from its start; it then returns all those names, in listing order. *)
Theorem get_model_filenames_iff fs text model_dir mpat refs :
  __get_model_filenames_for_id fs (IdStr text) model_dir mpat = Ok refs
  ↔ ∃ re names,
      Re.compile (Py.replace "#ID#" text mpat) = Ok re
      ∧ listdir fs model_dir = Ok names
      ∧ refs = filter (matches re) names
      ∧ refs ≠ [].
Proof.
  unfold __get_model_filenames_for_id. cbn [mbind result_bind]. split.
  - intros H. apply bind_Ok in H as (re & Hre & H).
    apply bind_Ok in H as (names & Hnames & H). exists re, names.
    destruct (filter (matches re) names) eqn:Hf; [done|]. injection H as <-.
    by repeat split.
  - intros (re & names & Hre & Hnames & -> & Hne).
    rewrite Hre. cbn [mbind result_bind]. rewrite Hnames. cbn [mbind result_bind].
    by destruct (filter (matches re) names).
Qed.

(** ** Reference letters past Z *)

Lemma chr_format_code i :
  (i < 63)%nat → Py.chr_format (65 + i) = Ok (String (ascii_of_nat (65 + i)) EmptyString).
Proof.
  intros Hi. unfold Py.chr_format.
  by rewrite (proj2 (Nat.ltb_lt (65 + i) 128)) by lia.
Qed.

Lemma model_elems_from_coded refs : ∀ i,
  (i + length refs ≤ 63)%nat →
  model_elems_from i refs = Ok (imap (fun k name => More.coded_entry (i + k) name) refs).
Proof.
  induction refs as [|name refs IH]; intros i Hi; [done|]. simpl in Hi.
  cbn [model_elems_from]. rewrite chr_format_code by lia. cbn [mbind result_bind].
  rewrite IH by lia. cbn [mbind result_bind]. rewrite imap_cons, Nat.add_0_r.
  do 2 f_equal. apply imap_ext. intros k x _. simpl. by rewrite Nat.add_succ_r.
Qed.

Lemma model_elems_from_overflow refs : ∀ i,
  (i ≤ 63)%nat → (63 < i + length refs)%nat →
  model_elems_from i refs = Raise UnicodeDecodeError.
Proof.
  induction refs as [|name refs IH]; intros i Hi Hlen; [simpl in Hlen; lia|].
  simpl in Hlen. cbn [model_elems_from].
  destruct (decide (i = 63%nat)) as [->|Hne]; [done|].
  rewrite chr_format_code by lia. cbn [mbind result_bind].
  by rewrite IH by lia.
Qed.

(** X7. The reference IDs do not wrap around after Z: with up to 63
    references both task generators succeed and the reference at position
    [i] gets the character with code [65 + i], so the 27th reference is
    given the ID [[]. *)
Theorem reference_ids_past_Z task_id system_id system_dir f peers model_dir refs :
  (length refs ≤ 63)%nat →
  __get_eval_string task_id system_id system_dir f model_dir refs
  = Ok (eval_template (Py.str_of_nat task_id) model_dir system_dir
          ("<P ID=" +:+ Py.dq +:+ system_id +:+ Py.dq +:+ ">" +:+ f +:+ "</P>")
          (Py.join elem_sep (imap More.coded_entry refs)))
  ∧ __get_eval_stringA task_id system_dir peers model_dir refs
    = Ok (eval_template (Py.str_of_nat task_id) model_dir system_dir
            (peer_elems_set peers) (Py.join elem_sep (imap More.coded_entry refs)))
  ∧ ∀ name, More.coded_entry 26 name
            = "<M ID=" +:+ Py.dq +:+ "[" +:+ Py.dq +:+ ">" +:+ name +:+ "</M>".
Proof.
  intros Hlen. unfold __get_eval_string, __get_eval_stringA.
  rewrite model_elems_from_coded by (simpl; lia). by repeat split.
Qed.

(** ** A failure while the document is being written *)

Lemma write_evalsA_app cfg system_dir model_dir l1 l2 : ∀ task_id fs,
  write_evalsA cfg system_dir model_dir task_id (l1 ++ l2) fs
  = match write_evalsA cfg system_dir model_dir task_id l1 fs with
    | (Ok _, fs1) => write_evalsA cfg system_dir model_dir (task_id + length l1) l2 fs1
    | (Raise e, fs1) => (Raise e, fs1)
    end.
Proof.
  induction l1 as [|[peers refs] l1 IH]; intros task_id fs.
  - simpl. by rewrite Nat.add_0_r.
  - cbn [app write_evalsA].
    destruct (__get_eval_stringA task_id system_dir peers model_dir refs); [|done].
    rewrite IH. simpl. by rewrite Nat.add_succ_r.
Qed.

Lemma get_eval_stringA_coded task_id system_dir peers model_dir refs :
  (length refs ≤ 63)%nat →
  __get_eval_stringA task_id system_dir peers model_dir refs
  = Ok (Crowded.coded_task_text system_dir model_dir task_id (peers, refs)).
Proof.
  intros Hlen. unfold __get_eval_stringA.
  by rewrite model_elems_from_coded by (simpl; lia).
Qed.

Lemma write_evalsA_coded cfg system_dir model_dir tasks : ∀ task_id fs content,
  Forall (fun task : list peer * list string => (length task.2 ≤ 63)%nat) tasks →
  files fs !! cfg = Some content →
  ∃ fs', write_evalsA cfg system_dir model_dir task_id tasks fs = (Ok (), fs')
    ∧ files fs' !! cfg
      = Some (content +:+ Spec.concat_text
                (imap (fun i task =>
                         Crowded.coded_task_text system_dir model_dir (task_id + i) task)
                   tasks)).
Proof.
  induction tasks as [|[peers refs] tasks IH]; intros task_id fs content Hall Hc.
  - exists fs. split; [done|]. simpl. by rewrite append_nil_r.
  - inversion Hall as [|? ? Hlen Hall']; subst. simpl in Hlen.
    cbn [write_evalsA]. rewrite get_eval_stringA_coded by done.
    destruct (IH (S task_id) _ _ Hall'
                (write_lookup cfg
                   (Crowded.coded_task_text system_dir model_dir task_id (peers, refs))
                   fs content Hc))
      as (fs' & Hrun & Hfile).
    exists fs'. split; [done|]. rewrite Hfile, imap_cons, Nat.add_0_r. simpl.
    rewrite append_assoc. do 4 f_equal. apply imap_ext. intros k x _. simpl.
    by rewrite Nat.add_succ_r.
Qed.

(** X8. The first task with more than 63 references makes
    [write_config_staticA] raise only once the configuration file is open:
    the exception comes from the reference ID of its 64th entry, and the
    file is left holding the header and the text of every task that
    precedes it, without the closing tag. *)
Theorem write_config_staticA_partial_document fs system_dir spat model_dir mpat cfg
    labels before peers refs after :
  ProduceSysModPair fs system_dir model_dir labels mpat spat
  = Ok (before ++ (peers, refs) :: after) →
  Forall (fun task : list peer * list string => (length task.2 ≤ 63)%nat) before →
  (63 < length refs)%nat →
  ∃ fs',
    write_config_staticA system_dir spat model_dir mpat cfg labels fs
    = (Raise UnicodeDecodeError, fs')
    ∧ files fs' !! cfg
      = Some (rouge_header
              +:+ Spec.concat_text
                    (imap (fun i task =>
                             Crowded.coded_task_text system_dir model_dir (S i) task)
                       before)).
Proof.
  intros Hpair Hbefore Hlen. unfold write_config_staticA.
  pose proof Hpair as Hlist. unfold ProduceSysModPair in Hlist.
  apply bind_Ok in Hlist as (names & Hnames & _).
  rewrite Hnames. cbn [mbind result_bind]. rewrite Hpair. cbv zeta.
  rewrite write_evalsA_app.
  destruct (write_evalsA_coded cfg system_dir model_dir before 1
              (write cfg rouge_header (open_w cfg fs)) rouge_header Hbefore)
    as (fs1 & Hrun & Hfile).
  { apply (write_lookup cfg rouge_header (open_w cfg fs) EmptyString).
    simpl. by rewrite lookup_insert_eq. }
  rewrite Hrun. cbn [write_evalsA]. unfold __get_eval_stringA.
  rewrite model_elems_from_overflow by (simpl; lia). cbn [mbind result_bind].
  by exists fs1.
Qed.

(** ** More on the Output Parser *)

Lemma lines_loop_app re l1 l2 : ∀ results,
  lines_loop re (l1 ++ l2) results
  = lines_loop re l1 results ≫= lines_loop re l2.
Proof.
  induction l1 as [|line l1 IH]; intros results; [done|]. simpl.
  destruct (Re.match_ re line) as [m|]; [|by apply IH].
  destruct (add_line (Re.groups m) results); [|done]. cbn [mbind result_bind].
  by apply IH.
Qed.

Lemma foldl_insert_other (l : list (string * Q)) : ∀ (m : gmap string Q) k,
  k ∉ l.*1 → foldl (fun acc e => <[e.1 := e.2]> acc) m l !! k = m !! k.
Proof.
  induction l as [|[k' v'] l IH]; intros m k Hk; [done|]. simpl in *.
  apply not_elem_of_cons in Hk as [Hne Hk]. rewrite IH by done.
  by rewrite lookup_insert_ne.
Qed.

Lemma foldl_insert_last (l1 l2 : list (string * Q)) (m : gmap string Q) k v :
  k ∉ l2.*1 →
  foldl (fun acc e => <[e.1 := e.2]> acc) m (l1 ++ (k, v) :: l2) !! k = Some v.
Proof.
  intros Hk. rewrite foldl_app. simpl. rewrite foldl_insert_other by done.
  by rewrite lookup_insert_eq.
Qed.

Lemma append_ne_self (s t : string) : t ≠ EmptyString → s ≠ s +:+ t.
Proof.
  intros Ht Heq. apply (f_equal String.length) in Heq. rewrite length_append in Heq.
  destruct t; [done|]. simpl in Heq. lia.
Qed.

Lemma line_entries_keys_NoDup line : NoDup (Spec.line_entries line).*1.
Proof.
  unfold Spec.line_entries.
  destruct (Spec.line_fields line) as [[|? [|metric [|measure [|v [|lo [|hi [|? ?]]]]]]]|];
    try apply NoDup_nil_2.
  simpl. set (key := Spec.metric_key metric measure).
  apply NoDup_cons_2.
  - intros [H|[H|H]%elem_of_cons]%elem_of_cons.
    + by apply append_ne_self in H.
    + by apply append_ne_self in H.
    + by apply elem_of_nil in H.
  - apply NoDup_cons_2; [|apply NoDup_singleton].
    intros [H|H]%elem_of_cons; [|by apply elem_of_nil in H].
    by apply (inj (String.app key)) in H.
Qed.

Lemma NoDup_keys_split (l : list (string * Q)) k v :
  NoDup l.*1 → (k, v) ∈ l → ∃ l1 l2, l = l1 ++ (k, v) :: l2 ∧ k ∉ l2.*1.
Proof.
  intros Hnd Hin. apply list_elem_of_split in Hin as (l1 & l2 & ->).
  exists l1, l2. split; [done|].
  rewrite fmap_app, fmap_cons in Hnd. apply NoDup_app in Hnd as (_ & _ & Hnd).
  by apply NoDup_cons in Hnd as [? _].
Qed.

(** X9. On a report whose matching lines are all well formed, the values
    of a line are those found under its keys in the result whenever no
    later line assigns the same keys: a later line with the same metric
    and measure replaces the earlier one, whatever the system number that
    starts the line. *)
Theorem output_to_dict_last_line_wins output before line after :
  Py.split_nl output = before ++ line :: after →
  Forall Spec.well_formed_line (Py.split_nl output) →
  (∀ e, e ∈ Spec.line_entries line → e.1 ∉ More.keys (after ≫= Spec.line_entries)) →
  ∃ results,
    output_to_dict output = Ok results
    ∧ ∀ k v, (k, v) ∈ Spec.line_entries line → results !! k = Some v.
Proof.
  intros Hsplit Hwf Hlater. unfold output_to_dict.
  rewrite compile_report. cbn [mbind result_bind].
  rewrite lines_loop_entries by done. eexists. split; [done|].
  intros k v Hin. rewrite Hsplit, bind_app, bind_cons.
  destruct (NoDup_keys_split _ k v (line_entries_keys_NoDup line) Hin)
    as (l1 & l2 & Hl & Hk).
  rewrite Hl, <- !app_assoc, app_assoc. simpl.
  apply foldl_insert_last. rewrite fmap_app. apply not_elem_of_app. split; [done|].
  apply (Hlater (k, v) Hin).
Qed.

Lemma well_formed_line_matched line sys_id metric measure v lo hi :
  Spec.line_fields line = Some [sys_id; metric; measure; v; lo; hi] →
  measure ∈ ["Average_R"; "Average_P"; "Average_F"] →
  is_ok (float v) → is_ok (float lo) → is_ok (float hi) →
  Spec.well_formed_line line.
Proof. intros Hf ? ? ? ?. unfold Spec.well_formed_line. by rewrite Hf. Qed.

Lemma measure_name_unknown measure :
  measure ∉ ["Average_R"; "Average_P"; "Average_F"] →
  measure_name measure = Raise (KeyError measure).
Proof.
  intros H. unfold measure_name.
  repeat (case_bool_decide; [subst; destruct H; set_solver|]). done.
Qed.

Lemma float_raises numeral e : float numeral = Raise e → e = ValueError.
Proof.
  unfold float. intros H.
  repeat (match type of H with
          | context [match ?x with _ => _ end] => destruct x
          end; try done); congruence.
Qed.

(** X10. The first matching line that is not well formed decides how the
    parser fails, the lines before it being well formed: it raises
    [KeyError] with the measure when that is none of [Average_R],
    [Average_P], [Average_F], and [ValueError] when the measure is known
    but one of the three numerals is not accepted by [float]. *)
Theorem output_to_dict_malformed_line output before line after
    sys_id metric measure v lo hi :
  Py.split_nl output = before ++ line :: after →
  Forall Spec.well_formed_line before →
  Spec.line_fields line = Some [sys_id; metric; measure; v; lo; hi] →
  ¬ Spec.well_formed_line line →
  output_to_dict output
  = Raise (if decide (measure ∈ ["Average_R"; "Average_P"; "Average_F"])
           then ValueError else KeyError measure).
Proof.
  intros Hsplit Hbefore Hfields Hbad. unfold output_to_dict.
  rewrite compile_report. cbn [mbind result_bind].
  rewrite Hsplit, lines_loop_app, lines_loop_entries by done. cbn [mbind result_bind].
  cbn [lines_loop].
  destruct (Re.match_ report_re line) as [m|] eqn:Hm;
    [|by rewrite (line_fields_none _ Hm) in Hfields].
  destruct (line_fields_match _ _ Hm) as (s0 & m0 & me0 & v0 & lo0 & hi0 & Hg & Hf).
  rewrite Hf in Hfields. injection Hfields as -> -> -> -> -> ->.
  rewrite Hg. cbn [add_line].
  unfold Spec.well_formed_line in Hbad. rewrite Hf in Hbad.
  destruct (decide (measure ∈ ["Average_R"; "Average_P"; "Average_F"])) as [Hin|Hout].
  - rewrite (measure_name_label _ Hin). cbn [mbind result_bind].
    destruct (float v) as [qv|ev] eqn:Hv;
      [|cbn [mbind result_bind]; by rewrite (float_raises _ _ Hv)].
    cbn [mbind result_bind].
    destruct (float lo) as [qlo|elo] eqn:Hlo;
      [|cbn [mbind result_bind]; by rewrite (float_raises _ _ Hlo)].
    cbn [mbind result_bind].
    destruct (float hi) as [qhi|ehi] eqn:Hhi;
      [|cbn [mbind result_bind]; by rewrite (float_raises _ _ Hhi)].
    by destruct Hbad.
  - by rewrite (measure_name_unknown _ Hout).
Qed.

(** ** More on the constructor arguments *)

Lemma star_any_stops k c u : ∀ fuel,
  (∀ s, Py.is_prefix Py.dq s = false → k s c = None) →
  More.no_quote u = true →
  Re.star_loop (Re.rmatch Re.Any) k fuel u c = None.
Proof.
  induction u as [|a u IH]; intros fuel Hk Hu.
  - destruct fuel; cbn [Re.star_loop Re.rmatch]; by rewrite Hk.
  - simpl in Hu. apply andb_true_iff in Hu as [Ha Hu]. apply negb_true_iff in Ha.
    assert (k (String a u) c = None) as Hhere.
    { apply Hk. cbn. apply bool_decide_eq_false in Ha.
      destruct (decide ("034"%char = a)); [by subst|done]. }
    destruct fuel as [|fuel]; cbn [Re.star_loop Re.rmatch]; [done|].
    destruct (bool_decide (a = "010"%char)); [done|].
    destruct (String.length u <? String.length (String a u))%nat; [|done].
    by rewrite IH.
Qed.

Lemma star_any_greedy_tail k c x t u : ∀ fuel,
  Py.no_newline t = true → More.no_quote u = true →
  (String.length t < fuel)%nat →
  (∀ s, Py.is_prefix Py.dq s = false → k s c = None) →
  k (Py.dq +:+ u) c = Some x →
  Re.star_loop (Re.rmatch Re.Any) k fuel (t +:+ Py.dq +:+ u) c = Some x.
Proof.
  induction t as [|a t IH]; intros fuel Hnl Hu Hfuel Hk Hq;
    (destruct fuel as [|fuel]; [simpl in Hfuel; lia|]).
  - change (EmptyString +:+ Py.dq +:+ u) with (String "034"%char u).
    change (Py.dq +:+ u) with (String "034"%char u) in Hq.
    cbn [Re.star_loop Re.rmatch]. rewrite bool_decide_eq_false_2 by done.
    assert ((String.length u <? String.length (String "034"%char u))%nat = true) as ->
      by (apply Nat.ltb_lt; simpl; lia).
    by rewrite star_any_stops.
  - simpl in Hnl. apply andb_true_iff in Hnl as [Ha Hnl]. apply negb_true_iff in Ha.
    rewrite append_cons. cbn [Re.star_loop Re.rmatch]. rewrite Ha.
    assert ((String.length (t +:+ Py.dq +:+ u)
             <? String.length (String a (t +:+ Py.dq +:+ u)))%nat = true) as ->
      by (apply Nat.ltb_lt; simpl; lia).
    rewrite IH; [done..| |done|done]. simpl in Hfuel. lia.
Qed.

(** X11. Constructor arguments that open with a quotation mark are cut
    down to the text between that mark and the last quotation mark of the
    line: whatever follows the closing mark is dropped without notice. *)
Theorem clean_rouge_args_drops_tail b body tail :
  Py.no_newline (String b body) = true →
  More.no_quote tail = true →
  __clean_rouge_args (Some (Py.dq +:+ String b body +:+ Py.dq +:+ tail))
  = Ok (Some (String b body)).
Proof.
  intros Hnl Htail. simpl in Hnl. apply andb_true_iff in Hnl as [Hb Hnl].
  apply negb_true_iff in Hb.
  change (Py.dq +:+ String b body +:+ Py.dq +:+ tail)
    with (String "034"%char (String b (body +:+ Py.dq +:+ tail))).
  unfold __clean_rouge_args. rewrite compile_quot_mark.
  cbn [mbind result_bind]. unfold Re.match_.
  cbn [Re.ast quot_mark_re Re.rmatch Re.ngroups replicate].
  rewrite bool_decide_eq_true_2 by done. rewrite Hb.
  erewrite star_any_greedy_tail; [| done | done | | | ].
  4:{ change (Py.dq +:+ tail) with (String "034"%char tail).
      cbn beta iota. rewrite bool_decide_eq_true_2 by done. reflexivity. }
  2:{ rewrite !length_append. simpl. lia. }
  2:{ intros s Hs. destruct s as [|a s]; [done|]. cbn in Hs.
      destruct (decide ("034"%char = a)) as [<-|Hne]; [done|].
      by rewrite bool_decide_eq_false_2 by done. }
  cbn [Re.groups snd]. rewrite list_lookup_insert_eq by (simpl; lia).
  do 2 f_equal.
  change (String "034"%char tail) with (Py.dq +:+ tail).
  rewrite <- !append_cons, length_append.
  replace (String.length (String b body) + String.length (Py.dq +:+ tail)
           - String.length (Py.dq +:+ tail))%nat
    with (String.length (String b body)) by lia.
  apply take_append.
Qed.

(** ** Converting a summary *)

Lemma split_nl_go_newline s : ∀ cur,
  Py.split_nl_go cur (s +:+ Py.nl) = Py.split_nl_go cur s ++ [EmptyString].
Proof.
  induction s as [|a s IH]; intros cur; [done|].
  rewrite append_cons. simpl. destruct (decide (a = "010"%char)).
  - by rewrite IH.
  - apply IH.
Qed.

Lemma sent_elems_from_app l1 l2 : ∀ i,
  sent_elems_from i (l1 ++ l2)
  = sent_elems_from i l1 ++ sent_elems_from (i + length l1) l2.
Proof.
  induction l1 as [|x l1 IH]; intros i; simpl.
  - by rewrite Nat.add_0_r.
  - by rewrite IH, Nat.add_succ_r.
Qed.

Lemma sent_elems_from_length l : ∀ i, length (sent_elems_from i l) = length l.
Proof. induction l as [|x l IH]; intros i; simpl; [done|]. by rewrite IH. Qed.

Lemma sent_elems_from_lookup l : ∀ i k sent,
  l !! k = Some sent → sent_elems_from i l !! k = Some (sent_elem (i + k) sent).
Proof.
  induction l as [|x l IH]; intros i k sent Hk; [done|].
  destruct k as [|k]; simpl in *.
  - injection Hk as ->. by rewrite Nat.add_0_r.
  - rewrite Nat.add_succ_r. by apply (IH (S i)).
Qed.

(** X12. [convert_text_to_rouge_format] numbers the lines of the text from
    1 in their order, one element per line.  The empty text still gives one
    (empty) sentence, and a text that ends with a newline gets one more
    element, an empty sentence with the next number. *)
Theorem sent_elems_numbering :
  (∀ text k sent,
     Py.split_nl text !! k = Some sent →
     sent_elems text !! k = Some (sent_elem (S k) sent))
  ∧ (∀ text, length (sent_elems text) = length (Py.split_nl text))
  ∧ sent_elems EmptyString = [sent_elem 1 EmptyString]
  ∧ (∀ text,
       sent_elems (text +:+ Py.nl)
       = sent_elems text ++ [sent_elem (S (length (sent_elems text))) EmptyString]).
Proof.
  repeat split.
  - intros text k sent Hk. unfold sent_elems. by apply (sent_elems_from_lookup _ 1).
  - intros text. apply sent_elems_from_length.
  - intros text. unfold sent_elems, Py.split_nl.
    rewrite split_nl_go_newline, sent_elems_from_app, sent_elems_from_length. done.
Qed.

(** ** The further properties at sample inputs *)

Lemma write_config_static_document_witness :
  ∃ fs',
    write_config_static "systems" Sample.system_pattern "models" Sample.model_pattern
      Sample.config_path "None" More.fs = (Ok (), fs')
    ∧ files fs' !! Sample.config_path
      = Some (More.static_document "None" "systems" "models" More.static_tasks)
    ∧ More.static_tasks.*1
      = filter (matches Sample.system_re) (Py.sorted ["sys-002.html"; "sys-001.html"])
    ∧ Forall (fun t : string * list string => StronglySorted String.le t.2)
        More.static_tasks.
Proof.
  apply (write_config_static_document More.fs "systems" Sample.system_pattern "models"
           Sample.model_pattern Sample.config_path "None" Sample.system_re
           ["sys-002.html"; "sys-001.html"] More.static_tasks).
  - vm_compute. reflexivity.
  - vm_compute. reflexivity.
  - vm_compute. reflexivity.
  - discriminate.
  - repeat constructor.
Defined.

Lemma write_config_static_listing_order_witness :
  (write_config_static "systems" Sample.system_pattern "models" Sample.model_pattern
     Sample.config_path "None" More.fs).1
  = (write_config_static "systems" Sample.system_pattern "models" Sample.model_pattern
       Sample.config_path "None" More.fs_reordered).1
  ∧ files (write_config_static "systems" Sample.system_pattern "models"
             Sample.model_pattern Sample.config_path "None" More.fs).2
    = files (write_config_static "systems" Sample.system_pattern "models"
               Sample.model_pattern Sample.config_path "None" More.fs_reordered).2.
Proof.
  apply (write_config_static_listing_order "systems" Sample.system_pattern "models"
           Sample.model_pattern Sample.config_path "None" More.fs More.fs_reordered).
  split; [reflexivity|]. intros d. unfold More.fs, More.fs_reordered. simpl.
  rewrite !lookup_insert, !lookup_singleton.
  repeat (case_decide;
          [cbn; first [reflexivity | apply perm_swap
                      | apply (Permutation_cons_append
                                 ["ref-002-A.html"; "ref-001-A.html"] "ref-001-B.html")]|]).
  exact I.
Defined.

Lemma ProduceSysModPair_succeeds_iff_witness :
  is_ok (ProduceSysModPair More.fs "peers" "p14models" ["01"; "02"]
           Sample.p14_model_pattern Sample.peers_pattern).
Proof.
  edestruct (ProduceSysModPair_succeeds_iff More.fs "peers" "p14models" ["01"; "02"]
               Sample.p14_model_pattern Sample.peers_pattern) as [_ Hback].
  - vm_compute. reflexivity.
  - vm_compute. reflexivity.
  - apply Hback. split.
    + repeat constructor.
    + repeat constructor; vm_compute; exact I.
Defined.

Lemma ProduceSysModPair_short_label_witness :
  ProduceSysModPair More.fs "ragged" "p14models" ["01"; "02"]
    Sample.p14_model_pattern Sample.peers_pattern = Raise IndexError
  ∧ write_config_staticA "ragged" Sample.peers_pattern "p14models"
      Sample.p14_model_pattern Sample.config_path ["01"; "02"] More.fs
    = (Raise IndexError, More.fs).
Proof.
  eapply (ProduceSysModPair_short_label More.fs "ragged" "p14models" ["01"; "02"]
            Sample.p14_model_pattern Sample.peers_pattern Sample.config_path).
  - vm_compute. reflexivity.
  - vm_compute. reflexivity.
  - repeat constructor; vm_compute; exact I.
  - constructor. simpl. lia.
Defined.

Lemma all_id_loop_entries_witness :
  Forall2 (fun L (l : list peer) =>
    StronglySorted String.le (peer_filename <$> l)
    ∧ Forall (fun p =>
        peer_system_id p = L
        ∧ ∃ re m, Re.compile (syspattern Sample.peers_pattern L) = Ok re
                  ∧ Re.match_ re (peer_filename p) = Some m
                  ∧ first_group m = Ok (peer_id p)) l)
    ["01"; "02"] Sample.peers_lists.
Proof.
  apply (all_id_loop_entries Sample.peers_pattern Sample.peers_listing ["01"; "02"]
           Sample.peers_lists).
  vm_compute. reflexivity.
Defined.

Lemma reference_ids_past_Z_witness :
  __get_eval_stringA 1 "peers" [] "crowd" (take 27 More.many_models)
  = Ok (eval_template (Py.str_of_nat 1) "crowd" "peers" (peer_elems_set [])
          (Py.join elem_sep (imap More.coded_entry (take 27 More.many_models)))).
Proof.
  apply (reference_ids_past_Z 1 "None" "peers" "sys-001.html" [] "crowd"
           (take 27 More.many_models)).
  vm_compute. lia.
Defined.

Lemma write_config_staticA_partial_document_witness :
  ∃ fs',
    write_config_staticA "peers" Sample.peers_pattern "crowded" Crowded.model_pattern
      Sample.config_path ["01"; "02"] Crowded.fs = (Raise UnicodeDecodeError, fs')
    ∧ files fs' !! Sample.config_path
      = Some (rouge_header
              +:+ Spec.concat_text
                    [Crowded.coded_task_text "peers" "crowded" 1 Crowded.first_task]).
Proof.
  eapply (write_config_staticA_partial_document Crowded.fs "peers" Sample.peers_pattern
            "crowded" Crowded.model_pattern Sample.config_path ["01"; "02"]
            [Crowded.first_task]).
  - vm_compute. reflexivity.
  - apply Forall_cons_2; [vm_compute; lia | apply Forall_nil_2].
  - vm_compute. lia.
Defined.

Lemma writers_touch_only_config_file_witness :
  (∀ system_id,
     files (write_config_static "systems" Sample.system_pattern "models"
              Sample.model_pattern Sample.config_path system_id More.fs).2 !! "notes.txt"
     = files More.fs !! "notes.txt")
  ∧ (∀ labels,
       files (write_config_staticA "peers" Sample.peers_pattern "p14models"
                Sample.p14_model_pattern Sample.config_path labels More.fs).2 !! "notes.txt"
       = files More.fs !! "notes.txt").
Proof.
  split.
  - apply (writers_touch_only_config_file "systems" Sample.system_pattern "models"
             Sample.model_pattern Sample.config_path More.fs "notes.txt").
    discriminate.
  - apply (writers_touch_only_config_file "peers" Sample.peers_pattern "p14models"
             Sample.p14_model_pattern Sample.config_path More.fs "notes.txt").
    discriminate.
Defined.

Lemma output_to_dict_last_line_wins_witness :
  ∃ results,
    output_to_dict
      ("1 ROUGE-1 Average_F: 0.10000 (95%-conf.int. 0.05000 - 0.20000)" +:+ Py.nl
       +:+ "2 ROUGE-1 Average_F: 0.95652 (95%-conf.int. 0.94000 - 0.97000)")
    = Ok results
    ∧ ∀ k v,
        (k, v) ∈ Spec.line_entries
                   "2 ROUGE-1 Average_F: 0.95652 (95%-conf.int. 0.94000 - 0.97000)" →
        results !! k = Some v.
Proof.
  apply (output_to_dict_last_line_wins _
           ["1 ROUGE-1 Average_F: 0.10000 (95%-conf.int. 0.05000 - 0.20000)"]
           "2 ROUGE-1 Average_F: 0.95652 (95%-conf.int. 0.94000 - 0.97000)" []).
  - vm_compute. reflexivity.
  - assert (Py.split_nl
              ("1 ROUGE-1 Average_F: 0.10000 (95%-conf.int. 0.05000 - 0.20000)" +:+ Py.nl
               +:+ "2 ROUGE-1 Average_F: 0.95652 (95%-conf.int. 0.94000 - 0.97000)")
            = ["1 ROUGE-1 Average_F: 0.10000 (95%-conf.int. 0.05000 - 0.20000)";
               "2 ROUGE-1 Average_F: 0.95652 (95%-conf.int. 0.94000 - 0.97000)"]) as ->
      by (vm_compute; reflexivity).
    apply Forall_cons_2; [|apply Forall_cons_2; [|apply Forall_nil_2]].
    + apply (well_formed_line_matched _ "1" "ROUGE-1" "Average_F"
               "0.10000" "0.05000" "0.20000");
        [vm_compute; reflexivity | set_solver | vm_compute; exact I ..].
    + apply (well_formed_line_matched _ "2" "ROUGE-1" "Average_F"
               "0.95652" "0.94000" "0.97000");
        [vm_compute; reflexivity | set_solver | vm_compute; exact I ..].
  - intros e _. apply not_elem_of_nil.
Defined.

Lemma output_to_dict_malformed_line_witness :
  output_to_dict "1 ROUGE-L Average_X: 0.50000 (95%-conf.int. 0.40000 - 0.60000)"
  = Raise (if decide ("Average_X" ∈ ["Average_R"; "Average_P"; "Average_F"])
           then ValueError else KeyError "Average_X").
Proof.
  apply (output_to_dict_malformed_line _ []
           "1 ROUGE-L Average_X: 0.50000 (95%-conf.int. 0.40000 - 0.60000)" []
           "1" "ROUGE-L" "Average_X" "0.50000" "0.40000" "0.60000").
  - vm_compute. reflexivity.
  - constructor.
  - vm_compute. reflexivity.
  - unfold Spec.well_formed_line.
    assert (Spec.line_fields
              "1 ROUGE-L Average_X: 0.50000 (95%-conf.int. 0.40000 - 0.60000)"
            = Some ["1"; "ROUGE-L"; "Average_X"; "0.50000"; "0.40000"; "0.60000"]) as ->
      by (vm_compute; reflexivity).
    intros [H _].
    repeat (apply elem_of_cons in H as [H|H]; [discriminate H|]).
    by apply elem_of_nil in H.
Defined.

Lemma clean_rouge_args_drops_tail_witness :
  __clean_rouge_args (Some (Py.dq +:+ "-a -n 2" +:+ Py.dq +:+ " -x 600"))
  = Ok (Some "-a -n 2").
Proof.
  apply (clean_rouge_args_drops_tail "-"%char "a -n 2" " -x 600"); reflexivity.
Defined.

Lemma clean_rouge_args_unquoted_witness :
  __clean_rouge_args (Some "-a -n 2") = Ok (Some "-a -n 2").
Proof. apply (clean_rouge_args_unquoted "-"%char "a -n 2"). discriminate. Defined.

(** ** Every task has references *)

Lemma all_id_loop_length P listing labels : ∀ all,
  all_id_loop P listing labels = Ok all → length all = length labels.
Proof.
  induction labels as [|L labels IH]; intros all H; simpl in H.
  - by injection H as <-.
  - apply bind_Ok in H as (re & _ & H). apply bind_Ok in H as (l & _ & H).
    apply bind_Ok in H as (tl & Htl & [= <-]). simpl. by rewrite (IH _ Htl).
Qed.

Lemma sorted_nonempty l : l ≠ [] → Py.sorted l ≠ [].
Proof.
  intros Hne Hs. apply Hne. apply Permutation_nil.
  rewrite <- Hs. unfold Py.sorted. by rewrite merge_sort_Permutation.
Qed.

Lemma system_models_loop_nonempty_references fs sre md mpat names : ∀ tuples,
  system_models_loop fs sre md mpat names = Ok tuples →
  Forall (fun t : string * list string => t.2 ≠ []) tuples.
Proof.
  induction names as [|f names IH]; intros tuples H; simpl in H.
  - injection H as <-. constructor.
  - destruct (Re.match_ sre f) as [m|]; [|by apply IH].
    apply bind_Ok in H as (id & _ & H). apply bind_Ok in H as (refs & Hrefs & H).
    apply bind_Ok in H as (tl & Htl & [= <-]).
    constructor; [|by apply IH]. simpl. apply sorted_nonempty.
    by apply get_model_filenames_listing_order in Hrefs as (? & ? & ? & _ & _ & _ & _ & ?).
Qed.

(** X13. No task without references is ever produced: every task of the
    single-system candidate loop and every task of [ProduceSysModPair] has
    at least one reference, and a task of [ProduceSysModPair] has exactly
    one peer per label. *)
Theorem tasks_have_references fs model_dir mpat :
  (∀ sre names tuples,
     system_models_loop fs sre model_dir mpat names = Ok tuples →
     Forall (fun t : string * list string => t.2 ≠ []) tuples)
  ∧ (∀ system_dir labels spat tasks,
       ProduceSysModPair fs system_dir model_dir labels mpat spat = Ok tasks →
       Forall (fun t : list peer * list string =>
                 t.2 ≠ [] ∧ length t.1 = length labels) tasks).
Proof.
  split.
  - intros sre names tuples. apply system_models_loop_nonempty_references.
  - intros system_dir labels spat tasks H. unfold ProduceSysModPair in H.
    apply bind_Ok in H as (names & _ & H). apply bind_Ok in H as (all & Hall & H).
    apply all_id_loop_length in Hall. destruct all as [|first others]; [done|].
    apply pair_loop_spec in H as [Hlen H].
    apply Forall_forall. intros t Ht. apply list_elem_of_lookup in Ht as [k Hk].
    assert (is_Some (first !! k)) as [p Hp].
    { apply lookup_lt_is_Some_2. rewrite <- Hlen. by eapply lookup_lt_Some. }
    destruct (H k p Hp) as (t' & Ht' & Hget & Hpeers). rewrite Hk in Ht'.
    injection Ht' as <-. split.
    + by apply get_model_filenames_listing_order in Hget
        as (? & ? & ? & _ & _ & _ & _ & ?).
    + apply Forall2_length in Hpeers. by rewrite <- Hpeers, Hall.
Qed.

(** ** A document is written afresh *)

Lemma get_model_filenames_dirs fs fs' id md mpat :
  dirs fs = dirs fs' →
  __get_model_filenames_for_id fs id md mpat = __get_model_filenames_for_id fs' id md mpat.
Proof. intros Hd. unfold __get_model_filenames_for_id, listdir. by rewrite Hd. Qed.

Lemma system_models_loop_dirs fs fs' sre md mpat names :
  dirs fs = dirs fs' →
  system_models_loop fs sre md mpat names = system_models_loop fs' sre md mpat names.
Proof.
  intros Hd. induction names as [|f names IH]; [done|]. cbn [system_models_loop].
  destruct (Re.match_ sre f) as [m|]; [|done].
  destruct (first_group m) as [id|]; [|done]. cbn [mbind result_bind].
  by rewrite IH, (get_model_filenames_dirs fs fs' id md mpat Hd).
Qed.

Lemma pair_loop_dirs fs fs' md mpat all first : ∀ i,
  dirs fs = dirs fs' →
  pair_loop fs md mpat all i first = pair_loop fs' md mpat all i first.
Proof.
  induction first as [|p first IH]; intros i Hd; [done|]. cbn [pair_loop].
  rewrite (get_model_filenames_dirs fs fs' (peer_id p) md mpat Hd).
  destruct (__get_model_filenames_for_id fs' (peer_id p) md mpat); [|done].
  cbn [mbind result_bind]. destruct (system_id_set_at i all); [|done].
  cbn [mbind result_bind]. by rewrite IH.
Qed.

Lemma write_evals_content cfg system_id system_dir model_dir tuples : ∀ task_id fs fs',
  files fs !! cfg = files fs' !! cfg →
  (write_evals cfg system_id system_dir model_dir task_id tuples fs).1
  = (write_evals cfg system_id system_dir model_dir task_id tuples fs').1
  ∧ files (write_evals cfg system_id system_dir model_dir task_id tuples fs).2 !! cfg
    = files (write_evals cfg system_id system_dir model_dir task_id tuples fs').2 !! cfg.
Proof.
  induction tuples as [|[f refs] tuples IH]; intros task_id fs fs' Hc; [done|].
  cbn [write_evals].
  destruct (__get_eval_string task_id system_id system_dir f model_dir refs); [|done].
  apply IH. simpl. by rewrite !lookup_alter_eq, Hc.
Qed.

Lemma write_evalsA_content cfg system_dir model_dir sys_mod : ∀ task_id fs fs',
  files fs !! cfg = files fs' !! cfg →
  (write_evalsA cfg system_dir model_dir task_id sys_mod fs).1
  = (write_evalsA cfg system_dir model_dir task_id sys_mod fs').1
  ∧ files (write_evalsA cfg system_dir model_dir task_id sys_mod fs).2 !! cfg
    = files (write_evalsA cfg system_dir model_dir task_id sys_mod fs').2 !! cfg.
Proof.
  induction sys_mod as [|[peers refs] sys_mod IH]; intros task_id fs fs' Hc; [done|].
  cbn [write_evalsA].
  destruct (__get_eval_stringA task_id system_dir peers model_dir refs); [|done].
  apply IH. simpl. by rewrite !lookup_alter_eq, Hc.
Qed.

(** X14. The writers start the configuration document afresh: on two file
    systems with the same directories, whatever files they hold, each
    writer returns the same result, and when it succeeds it leaves the same
    contents in the configuration file, so nothing of an earlier document
    at that path survives. *)
Theorem writers_overwrite system_dir spat model_dir mpat cfg fs fs' :
  dirs fs = dirs fs' →
  (∀ system_id,
     (write_config_static system_dir spat model_dir mpat cfg system_id fs).1
     = (write_config_static system_dir spat model_dir mpat cfg system_id fs').1
     ∧ ((write_config_static system_dir spat model_dir mpat cfg system_id fs).1 = Ok () →
        files (write_config_static system_dir spat model_dir mpat cfg system_id fs).2 !! cfg
        = files (write_config_static system_dir spat model_dir mpat cfg system_id fs').2
            !! cfg))
  ∧ (∀ labels,
       (write_config_staticA system_dir spat model_dir mpat cfg labels fs).1
       = (write_config_staticA system_dir spat model_dir mpat cfg labels fs').1
       ∧ ((write_config_staticA system_dir spat model_dir mpat cfg labels fs).1 = Ok () →
          files (write_config_staticA system_dir spat model_dir mpat cfg labels fs).2 !! cfg
          = files (write_config_staticA system_dir spat model_dir mpat cfg labels fs').2
              !! cfg)).
Proof.
  intros Hd. split.
  - intros system_id. unfold write_config_static, listdir. rewrite <- Hd.
    destruct (dirs fs !! system_dir) as [listing|]; [|done]. cbn [mbind result_bind].
    destruct (Re.compile spat) as [sre|]; [|done]. cbn [mbind result_bind].
    rewrite <- (system_models_loop_dirs fs fs' sre model_dir mpat _ Hd).
    destruct (system_models_loop fs sre model_dir mpat (Py.sorted listing))
      as [[|t tuples]|e]; [done| |done].
    cbn [mbind result_bind]. cbv zeta.
    destruct (write_evals_content cfg system_id system_dir model_dir (t :: tuples) 1
                (write cfg rouge_header (open_w cfg fs))
                (write cfg rouge_header (open_w cfg fs'))) as [H1 H2].
    { simpl. by rewrite !lookup_alter_eq, !lookup_insert_eq. }
    destruct (write_evals cfg system_id system_dir model_dir 1 (t :: tuples)
                (write cfg rouge_header (open_w cfg fs))) as [[[]|e] fs2],
             (write_evals cfg system_id system_dir model_dir 1 (t :: tuples)
                (write cfg rouge_header (open_w cfg fs'))) as [[[]|e'] fs2'];
      simpl in *; try done.
    split; [done|]. intros _. by rewrite !lookup_alter_eq, H2.
  - intros labels. unfold write_config_staticA, ProduceSysModPair, listdir. rewrite <- Hd.
    destruct (dirs fs !! system_dir) as [listing|]; [|done]. cbn [mbind result_bind].
    destruct (all_id_loop spat listing labels) as [[|first others]|e]; [done| |done].
    cbn [mbind result_bind].
    rewrite <- (pair_loop_dirs fs fs' model_dir mpat (first :: others) first 0 Hd).
    destruct (pair_loop fs model_dir mpat (first :: others) 0 first) as [sys_mod|e];
      [|done].
    cbv zeta.
    destruct (write_evalsA_content cfg system_dir model_dir sys_mod 1
                (write cfg rouge_header (open_w cfg fs))
                (write cfg rouge_header (open_w cfg fs'))) as [H1 H2].
    { simpl. by rewrite !lookup_alter_eq, !lookup_insert_eq. }
    destruct (write_evalsA cfg system_dir model_dir 1 sys_mod
                (write cfg rouge_header (open_w cfg fs))) as [[[]|e] fs2],
             (write_evalsA cfg system_dir model_dir 1 sys_mod
                (write cfg rouge_header (open_w cfg fs'))) as [[[]|e'] fs2'];
      simpl in *; try done.
    split; [done|]. intros _. by rewrite !lookup_alter_eq, H2.
Qed.

Lemma writers_overwrite_witness :
  (write_config_static "systems" Sample.system_pattern "models" Sample.model_pattern
     Sample.config_path "None" More.fs).1
  = (write_config_static "systems" Sample.system_pattern "models" Sample.model_pattern
       Sample.config_path "None" More.fs_stale).1
  ∧ ((write_config_static "systems" Sample.system_pattern "models" Sample.model_pattern
        Sample.config_path "None" More.fs).1 = Ok () →
     files (write_config_static "systems" Sample.system_pattern "models"
              Sample.model_pattern Sample.config_path "None" More.fs).2
       !! Sample.config_path
     = files (write_config_static "systems" Sample.system_pattern "models"
                Sample.model_pattern Sample.config_path "None" More.fs_stale).2
         !! Sample.config_path).
Proof.
  apply (proj1 (writers_overwrite "systems" Sample.system_pattern "models"
                  Sample.model_pattern Sample.config_path More.fs More.fs_stale
                  eq_refl) "None").
Defined.

Lemma write_config_static_no_candidates_witness :
  write_config_static "peers" Sample.system_pattern "models" Sample.model_pattern
    Sample.config_path "None" More.fs
  = (Raise (Exception (no_system_files_msg (Re.source Sample.system_re) "peers")),
     More.fs).
Proof.
  apply (write_config_static_no_candidates More.fs "peers" Sample.system_pattern "models"
           Sample.model_pattern Sample.config_path "None" Sample.system_re
           Sample.peers_listing).
  - vm_compute. reflexivity.
  - vm_compute. reflexivity.
  - repeat constructor; intros [m Hm]; vm_compute in Hm; discriminate Hm.
Defined.

Lemma write_config_staticA_no_candidates_witness :
  write_config_staticA "peers" Sample.peers_pattern "p14models" Sample.p14_model_pattern
    Sample.config_path ["03"; "01"] More.fs
  = (Ok (),
     write Sample.config_path rouge_footer
       (write Sample.config_path rouge_header (open_w Sample.config_path More.fs))).
Proof.
  eapply (write_config_staticA_no_candidates More.fs "peers" Sample.peers_pattern
            "p14models" Sample.p14_model_pattern Sample.config_path ["03"; "01"]).
  - vm_compute. reflexivity.
  - vm_compute. reflexivity.
Defined.
